(** * The ToDo token application (src/App.tsx)

    A shallow embedding of the three handlers of [App]: the creation handler
    [handleCreateSubmit], the completion handler [handleCompleteSubmit] and
    the loading effect that fills the list from the token basket.

    JavaScript data is modelled as the code has it: numbers with their
    not-a-number and infinite values, objects as ordered property lists
    (spread and property assignment keep JavaScript's override order), task
    objects as heap cells so that [===] on them is reference equality, and
    the wallet, the encryption service, PushDrop and the ledger as oracles
    whose every call is recorded in a trace.  A string is the sequence of
    its UTF-8 bytes; its length and its cuts are counted in UTF-16 code
    units, as JavaScript counts them, and the half of a surrogate pair
    that a cut leaves alone is written as a character of three bytes.  A
    handler runs from its first line to its last without another handler in
    between. *)

From Stdlib Require Import QArith DecimalString Ascii.
From stdpp Require Import gmap strings list fin_maps.

Local Open Scope string_scope.
Local Open Scope list_scope.
#[local] Set Warnings "-register-all".

(** ** JavaScript numbers *)

Module JsNumber.

(** A [number] is not-a-number, an infinity, or a finite value; every
    finite double is a rational. *)
Inductive number : Type :=
| NaN
| Infinity
| NegInfinity
| Finite (q : Q).

Definition of_Z (z : Z) : number := Finite (inject_Z z).

Definition isNaN (n : number) : bool :=
  match n with NaN => true | _ => false end.

(** [a === b] on numbers: not-a-number equals nothing, [-0 === 0]. *)
Definition strict_eq (a b : number) : bool :=
  match a, b with
  | Finite p, Finite q => Qeq_bool p q
  | Infinity, Infinity => true
  | NegInfinity, NegInfinity => true
  | _, _ => false
  end.

(** [a < b] on numbers: false as soon as one side is not-a-number. *)
Definition lt (a b : number) : bool :=
  match a, b with
  | NaN, _ | _, NaN => false
  | _, NegInfinity => false
  | NegInfinity, _ => true
  | Infinity, _ => false
  | Finite _, Infinity => true
  | Finite p, Finite q => negb (Qle_bool q p)
  end.

(** [a >= b]. *)
Definition ge (a b : number) : bool :=
  match a, b with
  | NaN, _ | _, NaN => false
  | Infinity, _ => true
  | _, NegInfinity => true
  | _, Infinity => false
  | NegInfinity, _ => false
  | Finite p, Finite q => Qle_bool q p
  end.

End JsNumber.
Export JsNumber.

(** ** JavaScript values and objects *)

Module JsValue.

(** Objects keep their own properties in insertion order. *)
Inductive value : Type :=
| VUndefined
| VNull
| VBool (b : bool)
| VNum (n : number)
| VStr (s : string)
| VArr (items : list value)
| VObj (props : list (string * value)).

Abbreviation obj := (list (string * value)).

(** [o.k] on an object: [undefined] when [k] is not an own property. *)
Fixpoint obj_get (k : string) (o : obj) : value :=
  match o with
  | [] => VUndefined
  | (k', v) :: o' => if String.eqb k k' then v else obj_get k o'
  end.

Definition obj_has (k : string) (o : obj) : bool :=
  existsb (fun p => String.eqb k (fst p)) o.

(** [o.k = v]: an existing property keeps its place, a new one goes last. *)
Fixpoint obj_set (k : string) (v : value) (o : obj) : obj :=
  match o with
  | [] => [(k, v)]
  | (k', v') :: o' =>
      if String.eqb k k' then (k, v) :: o' else (k', v') :: obj_set k v o'
  end.

Definition index_key (i : nat) : string :=
  NilEmpty.string_of_uint (Nat.to_uint i).

Definition chars (s : string) : list value :=
  map (fun a => VStr (String a EmptyString)) (String.list_ascii_of_string s).

(** The own enumerable properties that [{...v}] copies: none for
    [undefined], [null], booleans and numbers, the indexed elements of
    strings and arrays. *)
Definition own_props (v : value) : obj :=
  match v with
  | VObj ps => ps
  | VArr items => imap (fun i x => (index_key i, x)) items
  | VStr s => imap (fun i x => (index_key i, x)) (chars s)
  | _ => []
  end.

(** The parts of an object literal, in source order. *)
Inductive entry : Type :=
| Spread (v : value)
| Field (k : string) (v : value).

Definition add_entry (o : obj) (e : entry) : obj :=
  match e with
  | Spread v => fold_left (fun acc p => obj_set (fst p) (snd p) acc) (own_props v) o
  | Field k v => obj_set k v o
  end.

(** [{ e1, e2, ... }]: later entries override earlier ones. *)
Definition obj_lit (es : list entry) : obj := fold_left add_entry es [].

(** [v === ''] and friends: strict equality against a string literal. *)
Definition is_str (s : string) (v : value) : bool :=
  match v with VStr s' => String.eqb s' s | _ => false end.

Definition is_undefined (v : value) : bool :=
  match v with VUndefined => true | _ => false end.

(** [v == null]: true on [null] and [undefined] only. *)
Definition is_nullish (v : value) : bool :=
  match v with VUndefined | VNull => true | _ => false end.

(** [a ?? b]. *)
Definition nullish_or (a b : value) : value :=
  if is_nullish a then b else a.

End JsValue.
Export JsValue.

Notation "k ::= v" := (Field k v) (at level 60, no associativity).

(** ** Bytes and their hexadecimal text *)

Module Hex.

Abbreviation bytes := (list Byte.byte).

(** [Buffer.from(s)]: the UTF-8 bytes of a string, which are the string
    itself here. *)
Definition Buffer_from (s : string) : bytes := String.list_byte_of_string s.

(** [buf.toString()]: the string of a byte sequence. *)
Definition Buffer_toString (b : bytes) : string := String.string_of_list_byte b.

Definition digit (n : N) : ascii :=
  match n with
  | 0%N => "0" | 1%N => "1" | 2%N => "2" | 3%N => "3" | 4%N => "4"
  | 5%N => "5" | 6%N => "6" | 7%N => "7" | 8%N => "8" | 9%N => "9"
  | 10%N => "a" | 11%N => "b" | 12%N => "c" | 13%N => "d" | 14%N => "e"
  | _ => "f"
  end%char.

Definition digit_value (a : ascii) : option N :=
  let n := N_of_ascii a in
  if ((48 <=? n) && (n <=? 57))%N then Some (n - 48)%N
  else if ((97 <=? n) && (n <=? 102))%N then Some (n - 87)%N
  else if ((65 <=? n) && (n <=? 70))%N then Some (n - 55)%N
  else None.

(** [buf.toString('hex')]: two lower-case digits per byte. *)
Fixpoint to_hex (b : bytes) : string :=
  match b with
  | [] => EmptyString
  | x :: b' =>
      let n := Byte.to_N x in
      String (digit (n / 16)) (String (digit (n mod 16)) (to_hex b'))
  end.

Definition pair_value (hi lo : ascii) : option Byte.byte :=
  match digit_value hi, digit_value lo with
  | Some h, Some l => Byte.of_N (h * 16 + l)
  | _, _ => None
  end.

(** [Buffer.from(s, 'hex')]: reads digit pairs, and stops at the first
    pair that is not hexadecimal or at a trailing single character. *)
Fixpoint from_hex (s : string) : bytes :=
  match s with
  | String hi (String lo s') =>
      match pair_value hi lo with
      | Some x => x :: from_hex s'
      | None => []
      end
  | _ => []
  end.

End Hex.
Export Hex.

(** ** Strings as JavaScript counts them *)

Module JsString.

(** The UTF-16 code units of the character a byte starts: one for a
    character of one, two or three bytes, two for a character of four
    bytes, which JavaScript holds as a surrogate pair, and none for a
    continuation byte. *)
Definition units (a : ascii) : nat :=
  let n := N_of_ascii a in
  if (n <? 128)%N then 1
  else if (n <? 192)%N then 0
  else if (n <? 240)%N then 1
  else 2.

(** [s.length]. *)
Fixpoint length (s : string) : nat :=
  match s with
  | EmptyString => 0
  | String a s' => units a + length s'
  end.

(** The [i]-th byte after the first of a character, without its marker
    bits; 0 when the string ends before. *)
Definition payload (i : nat) (s : string) : N :=
  match String.get i s with
  | Some b => (N_of_ascii b mod 64)%N
  | None => 0%N
  end.

Definition three_bytes (second third : N) : string :=
  String (ascii_of_N 237)
    (String (ascii_of_N second) (String (ascii_of_N third) EmptyString)).

(** The first half of the surrogate pair of the four-byte character that
    starts with [a] and goes on with [s], written as a character of three
    bytes. *)
Definition high_surrogate (a : ascii) (s : string) : string :=
  let top := ((N_of_ascii a mod 8) * 256 + payload 0 s * 4 + payload 1 s / 16 - 64)%N in
  three_bytes (160 + (top / 64) mod 16)%N (128 + top mod 64)%N.

(** The second half of that pair. *)
Definition low_surrogate (a : ascii) (s : string) : string :=
  let bottom := ((payload 1 s mod 16) * 64 + payload 2 s)%N in
  three_bytes (176 + (bottom / 64) mod 16)%N (128 + bottom mod 64)%N.

(** The continuation bytes at the head belong to a character that is
    gone. *)
Fixpoint skip_continuation (s : string) : string :=
  match s with
  | EmptyString => EmptyString
  | String a s' =>
      match units a with
      | 0 => skip_continuation s'
      | _ => s
      end
  end.

(** The first [n] code units of a string; a surrogate pair that the cut
    falls into leaves its first half. *)
Fixpoint take (n : nat) (s : string) : string :=
  match s with
  | EmptyString => EmptyString
  | String a s' =>
      match units a, n with
      | 0, _ => String a (take n s')
      | _, 0 => EmptyString
      | 1, S n' => String a (take n' s')
      | _, 1 => high_surrogate a s'
      | _, S (S n') => String a (take n' s')
      end
  end.

(** A string without its first [n] code units; a surrogate pair that the
    cut falls into leaves its second half. *)
Fixpoint drop (n : nat) (s : string) : string :=
  match s with
  | EmptyString => EmptyString
  | String a s' =>
      match n, units a with
      | 0, _ => s
      | _, 0 => drop n s'
      | 1, 1 => skip_continuation s'
      | S n', 1 => drop n' s'
      | 1, _ => low_surrogate a s' +:+ skip_continuation s'
      | 2, _ => skip_continuation s'
      | S (S n'), _ => drop n' s'
      end
  end.

(** [s.substring(start, stop)]: the code units from the smaller to the
    larger of the two indices. *)
Definition substring (start stop : nat) (s : string) : string :=
  take (Nat.max start stop - Nat.min start stop) (drop (Nat.min start stop) s).

End JsString.

(** ** Errors, collaborator calls and the application state *)

Module Effects.

(** A thrown [Error]: its message and the [code] some SDK errors carry. *)
Record JsError : Type := mkError { code : value; message : string }.

Definition Error (msg : string) : JsError :=
  {| code := VUndefined; message := msg |}.

(** The error of reading property [k] of [undefined] or [null], and of
    handing a non-string to [Buffer.from]. *)
Definition TypeError (msg : string) : JsError :=
  {| code := VUndefined; message := msg |}.

Inductive Outcome (A : Type) : Type :=
| Ret (a : A)
| Throw (e : JsError).
Arguments Ret {A} a.
Arguments Throw {A} e.

(** [v.k]: throws on [undefined] and [null]; the properties read here are
    never the built-in ones of strings and arrays. *)
Definition get_prop (v : value) (k : string) : Outcome value :=
  match v with
  | VUndefined =>
      Throw (TypeError ("Cannot read properties of undefined (reading '" +:+ k +:+ "')"))
  | VNull =>
      Throw (TypeError ("Cannot read properties of null (reading '" +:+ k +:+ "')"))
  | VObj ps => Ret (obj_get k ps)
  | _ => Ret VUndefined
  end.

(** [v?.k]. *)
Definition get_prop_opt (v : value) (k : string) : value :=
  match v with
  | VObj ps => obj_get k ps
  | _ => VUndefined
  end.

(** The arguments of [createAction]. *)
Record ActionOutput : Type := {
  satoshis : number;
  script : string;
  basket : string;
  output_description : string
}.

Record Redeem : Type := {
  index : value;
  unlockingScript : string;
  spendingDescription : string
}.

(** One entry of [inputs]: the spread token and [outputsToRedeem]. *)
Record ActionInput : Type := {
  spread_token : obj;
  outputsToRedeem : list Redeem
}.

Record ActionArgs : Type := {
  description : string;
  outputs : option (list ActionOutput);
  inputs : option (list (string * ActionInput));
  log : string
}.

(** Every call that leaves the application. *)
Inductive call : Type :=
| Encrypt (plaintext : bytes) (protocolID keyID : string)
| Decrypt (ciphertext : bytes) (protocolID keyID returnType : string)
| PushdropCreate (fields : list bytes) (protocolID keyID : string)
| PushdropRedeem (protocolID keyID : string)
    (prevTxId outputIndex lockingScript outputAmount : value)
| CreateAction (args : ActionArgs)
| GetTransactionOutputs (basket : string) (spendable includeEnvelope : bool).

Definition is_ledger_action (c : call) : bool :=
  match c with CreateAction _ => true | _ => false end.

(** The external services.  The asynchronous ones see the calls made so
    far, since the wallet and the ledger are stateful; [pushdrop.decode]
    and the formatters are plain functions. *)
Record Services : Type := {
  encrypt : list call -> bytes -> string -> string -> Outcome bytes;
  decrypt : list call -> bytes -> string -> string -> string -> Outcome string;
  pushdrop_create : list call -> list bytes -> string -> string -> Outcome string;
  pushdrop_decode : value -> Outcome (list string);
  pushdrop_redeem :
    list call -> string -> string -> value -> value -> value -> value ->
    Outcome string;
  createAction : list call -> ActionArgs -> Outcome obj;
  getTransactionOutputs :
    list call -> string -> bool -> bool -> Outcome (list obj);
  stampLogFormat : value -> string;
  Number_toString : number -> string
}.

Inductive toast : Type :=
| ToastError (msg : string)
| ToastDark (msg : string).

Inductive console_entry : Type :=
| ConsoleLog (msg : string)
| ConsoleError (label : option string) (e : JsError).

Abbreviation loc := nat.

(** The [useState] cells of [App]. *)
Record Ui : Type := {
  createOpen : bool;
  createTask : string;
  createAmount : number;
  createLoading : bool;
  tasksLoading : bool;
  tasks : list loc;
  completeOpen : bool;
  selectedTask : option loc;
  completeLoading : bool
}.

(** What a handler can touch: the state cells, the task objects they
    refer to, the toasts and console lines shown, and the calls made. *)
Record World : Type := {
  ui : Ui;
  heap : gmap loc obj;
  toasts : list toast;
  console : list console_entry;
  trace : list call
}.

(** The state [App] starts in. *)
Definition initial_ui : Ui := {|
  createOpen := false;
  createTask := EmptyString;
  createAmount := of_Z 1000;
  createLoading := false;
  tasksLoading := true;
  tasks := [];
  completeOpen := false;
  selectedTask := None;
  completeLoading := false
|}.

Definition initial_world : World := {|
  ui := initial_ui; heap := ∅; toasts := []; console := []; trace := []
|}.

Definition with_ui (f : Ui -> Ui) (w : World) : World :=
  {| ui := f (ui w); heap := heap w; toasts := toasts w;
     console := console w; trace := trace w |}.

Definition with_createOpen (v : bool) (u : Ui) : Ui :=
  {| createOpen := v; createTask := createTask u; createAmount := createAmount u;
     createLoading := createLoading u; tasksLoading := tasksLoading u;
     tasks := tasks u; completeOpen := completeOpen u;
     selectedTask := selectedTask u; completeLoading := completeLoading u |}.

Definition with_createTask (v : string) (u : Ui) : Ui :=
  {| createOpen := createOpen u; createTask := v; createAmount := createAmount u;
     createLoading := createLoading u; tasksLoading := tasksLoading u;
     tasks := tasks u; completeOpen := completeOpen u;
     selectedTask := selectedTask u; completeLoading := completeLoading u |}.

Definition with_createAmount (v : number) (u : Ui) : Ui :=
  {| createOpen := createOpen u; createTask := createTask u; createAmount := v;
     createLoading := createLoading u; tasksLoading := tasksLoading u;
     tasks := tasks u; completeOpen := completeOpen u;
     selectedTask := selectedTask u; completeLoading := completeLoading u |}.

Definition with_createLoading (v : bool) (u : Ui) : Ui :=
  {| createOpen := createOpen u; createTask := createTask u;
     createAmount := createAmount u; createLoading := v;
     tasksLoading := tasksLoading u; tasks := tasks u;
     completeOpen := completeOpen u; selectedTask := selectedTask u;
     completeLoading := completeLoading u |}.

Definition with_tasksLoading (v : bool) (u : Ui) : Ui :=
  {| createOpen := createOpen u; createTask := createTask u;
     createAmount := createAmount u; createLoading := createLoading u;
     tasksLoading := v; tasks := tasks u; completeOpen := completeOpen u;
     selectedTask := selectedTask u; completeLoading := completeLoading u |}.

Definition with_tasks (v : list loc) (u : Ui) : Ui :=
  {| createOpen := createOpen u; createTask := createTask u;
     createAmount := createAmount u; createLoading := createLoading u;
     tasksLoading := tasksLoading u; tasks := v; completeOpen := completeOpen u;
     selectedTask := selectedTask u; completeLoading := completeLoading u |}.

Definition with_completeOpen (v : bool) (u : Ui) : Ui :=
  {| createOpen := createOpen u; createTask := createTask u;
     createAmount := createAmount u; createLoading := createLoading u;
     tasksLoading := tasksLoading u; tasks := tasks u; completeOpen := v;
     selectedTask := selectedTask u; completeLoading := completeLoading u |}.

Definition with_selectedTask (v : option loc) (u : Ui) : Ui :=
  {| createOpen := createOpen u; createTask := createTask u;
     createAmount := createAmount u; createLoading := createLoading u;
     tasksLoading := tasksLoading u; tasks := tasks u;
     completeOpen := completeOpen u; selectedTask := v;
     completeLoading := completeLoading u |}.

Definition with_completeLoading (v : bool) (u : Ui) : Ui :=
  {| createOpen := createOpen u; createTask := createTask u;
     createAmount := createAmount u; createLoading := createLoading u;
     tasksLoading := tasksLoading u; tasks := tasks u;
     completeOpen := completeOpen u; selectedTask := selectedTask u;
     completeLoading := v |}.

(** *** The handler monad: state and exceptions *)

Definition M (A : Type) : Type := World -> Outcome A * World.

#[export] Instance M_ret : MRet M := fun A a w => (Ret a, w).

#[export] Instance M_bind : MBind M := fun A B f m w =>
  match m w with
  | (Ret a, w') => f a w'
  | (Throw e, w') => (Throw e, w')
  end.

Definition throw {A : Type} (e : JsError) : M A := fun w => (Throw e, w).

(** A synchronous computation that may throw. *)
Definition lift {A : Type} (o : Outcome A) : M A := fun w => (o, w).

Definition read {A : Type} (f : Ui -> A) : M A := fun w => (Ret (f (ui w)), w).

Definition update (f : Ui -> Ui) : M unit := fun w => (Ret tt, with_ui f w).

(** [try { body } catch (e) { handler e }]. *)
Definition try_catch {A : Type} (body : M A) (handler : JsError -> M A) : M A :=
  fun w =>
    match body w with
    | (Ret a, w') => (Ret a, w')
    | (Throw e, w') => handler e w'
    end.

(** [try { body } finally { cleanup }]: the cleanup runs on both exits and
    the outcome of the body is kept unless the cleanup itself throws. *)
Definition try_finally {A : Type} (body : M A) (cleanup : M unit) : M A :=
  fun w =>
    match body w with
    | (o, w') =>
        match cleanup w' with
        | (Ret _, w'') => (o, w'')
        | (Throw e, w'') => (Throw e, w'')
        end
    end.

Definition toast_error (msg : string) : M unit := fun w =>
  (Ret tt, {| ui := ui w; heap := heap w; toasts := toasts w ++ [ToastError msg];
              console := console w; trace := trace w |}).

Definition toast_dark (msg : string) : M unit := fun w =>
  (Ret tt, {| ui := ui w; heap := heap w; toasts := toasts w ++ [ToastDark msg];
              console := console w; trace := trace w |}).

Definition console_write (c : console_entry) : M unit := fun w =>
  (Ret tt, {| ui := ui w; heap := heap w; toasts := toasts w;
              console := console w ++ [c]; trace := trace w |}).

(** A new object: a cell no earlier object lives in. *)
Definition alloc (o : obj) : M loc := fun w =>
  let l := fresh (dom (heap w)) in
  (Ret l, {| ui := ui w; heap := <[l := o]> (heap w); toasts := toasts w;
             console := console w; trace := trace w |}).

(** The object a reference points to. *)
Definition deref (w : World) (l : loc) : obj :=
  match heap w !! l with
  | Some o => o
  | None => []
  end.

Definition load (l : loc) : M obj := fun w => (Ret (deref w l), w).

(** A call to a service: the service sees the earlier calls, the call is
    recorded, and a rejected promise is a throw at the [await]. *)
Definition request {A : Type} (c : call) (answer : list call -> Outcome A) : M A :=
  fun w =>
    (answer (trace w),
     {| ui := ui w; heap := heap w; toasts := toasts w; console := console w;
        trace := trace w ++ [c] |}).

Fixpoint mapM {A B : Type} (f : A -> M B) (l : list A) : M (list B) :=
  match l with
  | [] => mret []
  | x :: l' => y ← f x; ys ← mapM f l'; mret (y :: ys)
  end.

End Effects.
Export Effects.

(** ** The handlers of [App] *)

Module App.

Section Handlers.

Variable svc : Services.

(** The namespace address of the ToDo protocol. *)
Definition TODO_PROTO_ADDR : string := "1ToDoDtKreEzbHYKFjmoBuduFmSXXUGZG".

Definition dquote : string := String (ascii_of_nat 34) EmptyString.

Definition join (sep : string) (l : list string) : string :=
  match l with
  | [] => EmptyString
  | x :: l' => fold_left (fun acc y => acc +:+ sep +:+ y) l' x
  end.

(** The string a template literal or a computed key makes of a value. *)
Fixpoint to_string (v : value) : string :=
  match v with
  | VUndefined => "undefined"
  | VNull => "null"
  | VBool true => "true"
  | VBool false => "false"
  | VNum NaN => "NaN"
  | VNum Infinity => "Infinity"
  | VNum NegInfinity => "-Infinity"
  | VNum (Finite q) => Number_toString svc (Finite q)
  | VStr s => s
  | VArr items =>
      join "," (map (fun x => if is_nullish x then EmptyString else to_string x) items)
  | VObj _ => "[object Object]"
  end.

(** [if (log != null && log !== '') console.log(stampLogFormat(log))]. *)
Definition print_log (log : value) : M unit :=
  if negb (is_nullish log) && negb (is_str EmptyString log)
  then console_write (ConsoleLog (stampLogFormat svc log))
  else mret tt.

(** Creates a new ToDo token: runs when the creation dialog is submitted. *)
Definition handleCreateSubmit : M unit :=
  try_finally
    (try_catch
       (createTask ← read createTask;
        createAmount ← read createAmount;
        if String.eqb createTask EmptyString then
          toast_error "Enter a task to complete!"
        else if strict_eq createAmount (of_Z 0) || isNaN createAmount then
          toast_error "Enter an amount for the new task!"
        else if lt createAmount (of_Z 500) then
          toast_error "The amount must be more than 500 satoshis!"
        else
          update (with_createLoading true);;
          encryptedTask ←
            request (Encrypt (Buffer_from createTask) "todo list" "1")
              (fun tr => encrypt svc tr (Buffer_from createTask) "todo list" "1");
          let fields := [Buffer_from TODO_PROTO_ADDR; encryptedTask] in
          bitcoinOutputScript ←
            request (PushdropCreate fields "todo list" "1")
              (fun tr => pushdrop_create svc tr fields "todo list" "1");
          let args :=
            {| description := "Create a TODO task: " +:+ createTask;
               outputs := Some [ {| satoshis := createAmount;
                                    script := bitcoinOutputScript;
                                    basket := "todo tokens";
                                    output_description := "New ToDo list item" |} ];
               inputs := None;
               log := EmptyString |} in
          newToDoToken ← request (CreateAction args) (fun tr => createAction svc tr args);
          print_log (obj_get "log" newToDoToken);;
          toast_dark "Task successfully created!";;
          let txid := nullish_or (obj_get "txid" newToDoToken) (VStr EmptyString) in
          newTask ← alloc (obj_lit
            [ "task" ::= VStr createTask;
              "sats" ::= VNum createAmount;
              "token" ::= VObj (obj_lit
                [ Spread (VObj newToDoToken);
                  "lockingScript" ::= VStr bitcoinOutputScript;
                  "txid" ::= txid;
                  "outputIndex" ::= VNum (of_Z 0) ]) ]);
          update (fun u => with_tasks (newTask :: tasks u) u);;
          update (with_createTask EmptyString);;
          update (with_createAmount (of_Z 1000));;
          update (with_createOpen false))
       (fun e =>
          toast_error (message e);;
          console_write (ConsoleError None e)))
    (update (with_createLoading false)).

(** [oldTasks.findIndex(p)], with [None] for [-1]. *)
Fixpoint findIndex {A : Type} (p : A -> bool) (l : list A) : option nat :=
  match l with
  | [] => None
  | x :: l' => if p x then Some 0 else S <$> findIndex p l'
  end.

(** The updater of the completion handler: the first cell that is the
    selected object itself is spliced out, and the array is copied. *)
Definition remove_selected (selected : loc) (oldTasks : list loc) : list loc :=
  match findIndex (fun x => Nat.eqb x selected) oldTasks with
  | Some index => delete index oldTasks
  | None => oldTasks
  end.

(** [selectedTask?.token.k]: [undefined] without a selected task, a throw
    when the selected object has no [token]. *)
Definition selected_token_prop (sel : option obj) (k : string) : Outcome value :=
  match sel with
  | None => Ret VUndefined
  | Some o => get_prop (obj_get "token" o) k
  end.

Definition selected_prop (sel : option obj) (k : string) : value :=
  match sel with
  | None => VUndefined
  | Some o => obj_get k o
  end.

(** Redeems the ToDo token of the selected task: runs when the completion
    dialog is submitted. *)
Definition handleCompleteSubmit : M unit :=
  try_finally
    (try_catch
       (update (with_completeLoading true);;
        selectedTask ← read selectedTask;
        selected ← match selectedTask with
                   | None => mret None
                   | Some l => o ← load l; mret (Some o)
                   end;
        prevTxId ← lift (selected_token_prop selected "txid");
        outputIndex ← lift (selected_token_prop selected "outputIndex");
        lockingScript ← lift (selected_token_prop selected "lockingScript");
        let outputAmount := selected_prop selected "sats" in
        unlockingScript ←
          request
            (PushdropRedeem "todo list" "1" prevTxId outputIndex lockingScript outputAmount)
            (fun tr => pushdrop_redeem svc tr "todo list" "1"
                         prevTxId outputIndex lockingScript outputAmount);
        let description :=
          "Complete a TODO task: " +:+ dquote
            +:+ to_string (selected_prop selected "task") +:+ dquote in
        let description :=
          if (128 <? JsString.length description)%nat
          then JsString.substring 0 128 description else description in
        match selectedTask, selected with
        | Some ref, Some task =>
            let token := obj_get "token" task in
            if is_str EmptyString (get_prop_opt token "txid") then
              throw (Error "Task data is incomplete or undefined.")
            else
              outputIndex ← lift (get_prop token "outputIndex");
              if is_undefined outputIndex then
                throw (Error "Task data is incomplete or undefined.")
              else
                txid ← lift (get_prop token "txid");
                index ← lift (get_prop token "outputIndex");
                let args :=
                  {| description := description;
                     outputs := None;
                     inputs := Some
                       [ (to_string txid,
                          {| spread_token := obj_lit [Spread token];
                             outputsToRedeem :=
                               [ {| index := index;
                                    unlockingScript := unlockingScript;
                                    spendingDescription := "Complete a ToDo list item" |} ] |}) ];
                     log := EmptyString |} in
                r ← request (CreateAction args) (fun tr => createAction svc tr args);
                print_log (obj_get "log" r);;
                toast_dark "Congrats! Task complete 🎉";;
                update (fun u => with_tasks (remove_selected ref (tasks u)) u);;
                update (with_selectedTask None);;
                update (with_completeOpen false)
        | _, _ => throw (Error "No task selected.")
        end)
       (fun e =>
          toast_error ("Error completing task: " +:+ message e);;
          console_write (ConsoleError None e)))
    (update (with_completeLoading false)).

(** The text shown for a token that could not be decoded or decrypted. *)
Definition UNABLE_TO_DECRYPT : string := "[error] Unable to decrypt task!".

(** The callback mapped over the basket outputs: the decoded and decrypted
    task, or the placeholder of the [catch] branch. *)
Definition decodeTask (task : obj) : M loc :=
  try_catch
    (decodedTask ← lift (pushdrop_decode svc (obj_get "outputScript" task));
     encryptedTask ←
       match decodedTask !! 1%nat with
       | Some field => mret field
       | None => throw (TypeError
           "The first argument must be of type string or an instance of Buffer, ArrayBuffer, or Array or an Array-like Object. Received undefined")
       end;
     decryptedTask ←
       request (Decrypt (from_hex encryptedTask) "todo list" "1" "string")
         (fun tr => decrypt svc tr (from_hex encryptedTask) "todo list" "1" "string");
     alloc (obj_lit
       [ "token" ::= VObj (obj_lit
           [ Spread (obj_get "envelope" task);
             "lockingScript" ::= obj_get "outputScript" task;
             "txid" ::= obj_get "txid" task;
             "outputIndex" ::= obj_get "vout" task ]);
         "sats" ::= obj_get "amount" task;
         "task" ::= VStr decryptedTask ]))
    (fun e =>
       console_write (ConsoleError (Some "Error decrypting task:") e);;
       alloc (obj_lit [ Spread (VObj task); "task" ::= VStr UNABLE_TO_DECRYPT ])).

(** The effect that loads the user's ToDo tokens from their basket when the
    page loads. *)
Definition loadTasks : M unit :=
  try_finally
    (try_catch
       (tasksFromBasket ←
          request (GetTransactionOutputs "todo tokens" true true)
            (fun tr => getTransactionOutputs svc tr "todo tokens" true true);
        decryptedTasks ← mapM decodeTask tasksFromBasket;
        update (with_tasks (rev decryptedTasks)))
       (fun e =>
          let errorCode := code e in
          if negb (is_str "ERR_NO_METANET_IDENTITY" errorCode) then
            toast_error ("Failed to load ToDo tasks! Error: " +:+ message e);;
            console_write (ConsoleError None e)
          else mret tt))
    (update (with_tasksLoading false)).

(** Opens the completion dialog for a task of the list. *)
Definition openCompleteModal (task : loc) : M unit :=
  update (with_selectedTask (Some task));;
  update (with_completeOpen true).

(** What the user and the page can do: the page loads, the buttons open
    and close the two dialogs, the two text fields change, a task of the
    list is clicked, a dialog is submitted. *)
Inductive action : Type :=
| PageLoads
| OpenCreate
| CloseCreate
| ChangeTask (text : string)
| ChangeAmount (amount : number)
| SubmitCreate
| ClickTask (task : loc)
| CloseComplete
| SubmitComplete.

Definition run (a : action) : M unit :=
  match a with
  | PageLoads => loadTasks
  | OpenCreate => update (with_createOpen true)
  | CloseCreate => update (with_createOpen false)
  | ChangeTask text => update (with_createTask text)
  | ChangeAmount amount => update (with_createAmount amount)
  | SubmitCreate => handleCreateSubmit
  | ClickTask task => openCompleteModal task
  | CloseComplete => update (with_completeOpen false)
  | SubmitComplete => handleCompleteSubmit
  end.

(** Only the tasks of the list can be clicked. *)
Definition enabled (w : World) (a : action) : Prop :=
  match a with
  | ClickTask task => task ∈ tasks (ui w)
  | _ => True
  end.

End Handlers.

End App.
Export App.

(** ** A small wallet to run the handlers on *)

Module Demo.

(** The toy cipher: a tag byte derived from the protocol and key
    identifiers, then the plaintext reversed. *)
Definition key_tag (protocolID keyID : string) : Byte.byte :=
  default Byte.x00
    (Byte.of_N (N.of_nat (String.length protocolID + 7 * String.length keyID) mod 256)).

Definition demo_encrypt (plaintext : bytes) (protocolID keyID : string) : Outcome bytes :=
  Ret (key_tag protocolID keyID :: rev plaintext).

Definition demo_decrypt (ciphertext : bytes) (protocolID keyID : string) : Outcome string :=
  match ciphertext with
  | tag :: body =>
      if Byte.eqb tag (key_tag protocolID keyID)
      then Ret (Buffer_toString (rev body))
      else Throw (Error "Decryption failed!")
  | [] => Throw (Error "Decryption failed!")
  end.

(** The toy script: every field in hexadecimal, each closed by a
    semicolon. *)
Definition demo_script (fields : list bytes) : string :=
  fold_right (fun f s => to_hex f +:+ ";" +:+ s) EmptyString fields.

(** Splits at the semicolons; [acc] holds the current field reversed, and
    text after the last semicolon makes the script invalid. *)
Fixpoint split_fields (acc : list ascii) (s : string) : option (list string) :=
  match s with
  | EmptyString =>
      match acc with
      | [] => Some []
      | _ => None
      end
  | String c s' =>
      if Ascii.eqb c ";"%char
      then (fun fields => String.string_of_list_ascii (rev acc) :: fields)
             <$> split_fields [] s'
      else split_fields (c :: acc) s'
  end.

Definition demo_decode (script : value) : Outcome (list string) :=
  match script with
  | VStr s =>
      match split_fields [] s with
      | Some fields => Ret fields
      | None => Throw (Error "Invalid script")
      end
  | _ => Throw (Error "Invalid script")
  end.

Definition show_number (n : number) : string :=
  match n with
  | Finite q => NilZero.string_of_int (Z.to_int (Qnum q / Z.pos (Qden q)))
  | _ => "NaN"
  end.

(** A wallet whose ledger answers [ledger] and whose basket holds
    [basket_contents]; transaction ids count the calls made so far. *)
Definition demo_services
    (ledger : list call -> ActionArgs -> Outcome obj)
    (basket_contents : Outcome (list obj)) : Services := {|
  encrypt := fun _ => demo_encrypt;
  decrypt := fun _ c p k _ => demo_decrypt c p k;
  pushdrop_create := fun _ fields _ _ => Ret (demo_script fields);
  pushdrop_decode := demo_decode;
  pushdrop_redeem := fun _ _ _ _ _ _ _ => Ret "unlock";
  createAction := ledger;
  getTransactionOutputs := fun _ _ _ _ => basket_contents;
  stampLogFormat := fun _ => "log";
  Number_toString := show_number
|}.

Definition ledger_ok (tr : list call) (_ : ActionArgs) : Outcome obj :=
  Ret [ ("txid", VStr ("tx" +:+ index_key (length tr))); ("rawTx", VStr "0100") ].

(** A ledger whose successful answer carries no transaction id. *)
Definition ledger_no_txid (_ : list call) (_ : ActionArgs) : Outcome obj :=
  Ret [ ("rawTx", VStr "0100") ].

Definition wallet : Services := demo_services ledger_ok (Ret []).

(** The world after the user typed a task and an amount. *)
Definition typed (description : string) (amount : number) (w : World) : World :=
  snd (run wallet (ChangeAmount amount) (snd (run wallet (ChangeTask description) w))).

End Demo.


(** ** What the claims speak about *)

Module Spec.

Section Statements.

Variable svc : Services.

(** *** Creation *)

(** A description and an amount that pass the checks of the creation
    dialog. *)
Definition valid_input (w : World) : Prop :=
  createTask (ui w) ≠ EmptyString ∧ ge (createAmount (ui w)) (of_Z 500) = true.

(** An empty description, or an amount that is zero, not a number, or
    below 500. *)
Definition invalid_input (w : World) : Prop :=
  createTask (ui w) = EmptyString
  ∨ strict_eq (createAmount (ui w)) (of_Z 0) = true
  ∨ isNaN (createAmount (ui w)) = true
  ∨ lt (createAmount (ui w)) (of_Z 500) = true.

Definition validation_messages : list string :=
  [ "Enter a task to complete!";
    "Enter an amount for the new task!";
    "The amount must be more than 500 satoshis!" ].

(** The world a refused creation leaves. *)
Definition refused_world (w : World) (msg : string) : World :=
  {| ui := with_createLoading false (ui w); heap := heap w;
     toasts := toasts w ++ [ToastError msg]; console := console w; trace := trace w |}.

(** The lines [print_log] writes for a [log] property. *)
Definition log_lines (log : value) : list console_entry :=
  if negb (is_nullish log) && negb (is_str EmptyString log)
  then [ConsoleLog (stampLogFormat svc log)]
  else [].

(** The Action that creates the token of a task. *)
Definition create_args (description : string) (amount : number) (script : string)
    : ActionArgs :=
  {| description := "Create a TODO task: " +:+ description;
     outputs := Some [ {| satoshis := amount;
                          script := script;
                          basket := "todo tokens";
                          output_description := "New ToDo list item" |} ];
     inputs := None;
     log := EmptyString |}.

(** The three calls of a creation, with ciphertext [c] and script [s]. *)
Definition create_calls (w : World) (c : bytes) (s : string) : list call :=
  [ Encrypt (Buffer_from (createTask (ui w))) "todo list" "1";
    PushdropCreate [Buffer_from TODO_PROTO_ADDR; c] "todo list" "1";
    CreateAction (create_args (createTask (ui w)) (createAmount (ui w)) s) ].

(** The creation started in [w] goes through: the encryption yields [c],
    PushDrop yields the script [s] and the ledger answers [r]. *)
Definition create_succeeds (w : World) (c : bytes) (s : string) (r : obj) : Prop :=
  encrypt svc (trace w) (Buffer_from (createTask (ui w))) "todo list" "1" = Ret c
  ∧ pushdrop_create svc (trace w ++ take 1 (create_calls w c s))
      [Buffer_from TODO_PROTO_ADDR; c] "todo list" "1" = Ret s
  ∧ createAction svc (trace w ++ take 2 (create_calls w c s))
      (create_args (createTask (ui w)) (createAmount (ui w)) s) = Ret r.

(** The token and the task object a successful creation builds. *)
Definition created_token (s : string) (r : obj) : obj :=
  obj_lit [ Spread (VObj r);
            "lockingScript" ::= VStr s;
            "txid" ::= nullish_or (obj_get "txid" r) (VStr EmptyString);
            "outputIndex" ::= VNum (of_Z 0) ].

Definition created_task (description : string) (amount : number) (s : string) (r : obj)
    : obj :=
  obj_lit [ "task" ::= VStr description;
            "sats" ::= VNum amount;
            "token" ::= VObj (created_token s r) ].

(** The world a successful creation leaves. *)
Definition created_world (w : World) (c : bytes) (s : string) (r : obj) : World :=
  let l := fresh (dom (heap w)) in
  {| ui := {| createOpen := false;
              createTask := EmptyString;
              createAmount := of_Z 1000;
              createLoading := false;
              tasksLoading := tasksLoading (ui w);
              tasks := l :: tasks (ui w);
              completeOpen := completeOpen (ui w);
              selectedTask := selectedTask (ui w);
              completeLoading := completeLoading (ui w) |};
     heap := <[l := created_task (createTask (ui w)) (createAmount (ui w)) s r]> (heap w);
     toasts := toasts w ++ [ToastDark "Task successfully created!"];
     console := console w ++ log_lines (obj_get "log" r);
     trace := trace w ++ create_calls w c s |}.

(** The world a creation leaves when one of its calls throws [e] after the
    calls [calls]. *)
Definition create_failed_world (w : World) (calls : list call) (e : JsError) : World :=
  {| ui := with_createLoading false (ui w);
     heap := heap w;
     toasts := toasts w ++ [ToastError (message e)];
     console := console w ++ [ConsoleError None e];
     trace := trace w ++ calls |}.

(** *** The contracts of the collaborators *)

(** PushDrop gives back, in hexadecimal, the fields a script was made of. *)
Definition codec_round_trip : Prop :=
  forall (tr : list call) (fields : list bytes) (p k s : string),
    pushdrop_create svc tr fields p k = Ret s ->
    pushdrop_decode svc (VStr s) = Ret (to_hex <$> fields).

(** Decrypting under the protocol and key identifiers of the encryption
    gives back the plaintext, whenever it is asked. *)
Definition cipher_round_trip : Prop :=
  forall (tr tr' : list call) (plaintext c : bytes) (p k : string),
    encrypt svc tr plaintext p k = Ret c ->
    decrypt svc tr' c p k "string" = Ret (Buffer_toString plaintext).

(** *** Completion *)

(** The PushDrop call of a completion without a selected task. *)
Definition redeem_nothing : call :=
  PushdropRedeem "todo list" "1" VUndefined VUndefined VUndefined VUndefined.

(** The PushDrop call of a completion of [task] with token [tok]. *)
Definition redeem_call (task tok : obj) : call :=
  PushdropRedeem "todo list" "1"
    (obj_get "txid" tok) (obj_get "outputIndex" tok) (obj_get "lockingScript" tok)
    (obj_get "sats" task).

Definition redeem_answer (tr : list call) (task tok : obj) : Outcome string :=
  pushdrop_redeem svc tr "todo list" "1"
    (obj_get "txid" tok) (obj_get "outputIndex" tok) (obj_get "lockingScript" tok)
    (obj_get "sats" task).

(** The error that ends a completion stopped by a check: the one PushDrop
    threw, if it threw, and the error of the check otherwise. *)
Definition thrown_or {A : Type} (o : Outcome A) (e : JsError) : JsError :=
  match o with
  | Ret _ => e
  | Throw e' => e'
  end.

(** The world a completion leaves when it is caught with error [e] after
    the calls [calls]. *)
Definition rejected_world (w : World) (calls : list call) (e : JsError) : World :=
  {| ui := with_completeLoading false (ui w);
     heap := heap w;
     toasts := toasts w ++ [ToastError ("Error completing task: " +:+ message e)];
     console := console w ++ [ConsoleError None e];
     trace := trace w ++ calls |}.

(** The token lacks what a redemption needs. *)
Definition incomplete_token (tok : obj) : Prop :=
  obj_get "txid" tok = VStr EmptyString ∨ obj_get "outputIndex" tok = VUndefined.

(** No task is selected, or the selected one has an incomplete token. *)
Definition unsubmittable (w : World) : Prop :=
  selectedTask (ui w) = None
  ∨ exists (ref : loc) (task tok : obj),
      selectedTask (ui w) = Some ref
      ∧ heap w !! ref = Some task
      ∧ obj_get "token" task = VObj tok
      ∧ incomplete_token tok.

(** The errors of the two checks of the completion handler. *)
Definition precondition_errors : list JsError :=
  [ Error "No task selected."; Error "Task data is incomplete or undefined." ].

(** The check that stops a completion in [w]: the PushDrop call made
    before it, the answer to that call, and the error of the check. *)
Inductive stopped_at (w : World) : call -> Outcome string -> JsError -> Prop :=
| stopped_no_selection :
    selectedTask (ui w) = None ->
    stopped_at w redeem_nothing
      (pushdrop_redeem svc (trace w) "todo list" "1"
         VUndefined VUndefined VUndefined VUndefined)
      (Error "No task selected.")
| stopped_incomplete (ref : loc) (task tok : obj) :
    selectedTask (ui w) = Some ref ->
    heap w !! ref = Some task ->
    obj_get "token" task = VObj tok ->
    incomplete_token tok ->
    stopped_at w (redeem_call task tok) (redeem_answer (trace w) task tok)
      (Error "Task data is incomplete or undefined.").

(** The completion in [w] shows the error of one of the two checks. *)
Definition rejected_by_check (w : World) : Prop :=
  exists e : JsError,
    e ∈ precondition_errors
    ∧ toasts (snd (handleCompleteSubmit svc w))
      = toasts w ++ [ToastError ("Error completing task: " +:+ message e)].

Definition complete_description (task : obj) : string :=
  let description :=
    "Complete a TODO task: " +:+ dquote +:+ to_string svc (obj_get "task" task) +:+ dquote in
  if (128 <? JsString.length description)%nat
  then JsString.substring 0 128 description else description.

(** The Action that redeems the token [tok] of [task]. *)
Definition complete_args (task tok : obj) (u : string) : ActionArgs :=
  {| description := complete_description task;
     outputs := None;
     inputs := Some
       [ (to_string svc (obj_get "txid" tok),
          {| spread_token := obj_lit [Spread (VObj tok)];
             outputsToRedeem :=
               [ {| index := obj_get "outputIndex" tok;
                    unlockingScript := u;
                    spendingDescription := "Complete a ToDo list item" |} ] |}) ];
     log := EmptyString |}.

(** The completion started in [w] goes through: PushDrop yields the
    unlocking script [u] and the ledger answers [r]. *)
Definition complete_succeeds (w : World) (task tok : obj) (u : string) (r : obj) : Prop :=
  redeem_answer (trace w) task tok = Ret u
  ∧ createAction svc (trace w ++ [redeem_call task tok]) (complete_args task tok u) = Ret r.

(** The selected task [ref] can be submitted: it is the object [task],
    whose token [tok] has a transaction id and an output index. *)
Definition submittable (w : World) (ref : loc) (task tok : obj) : Prop :=
  selectedTask (ui w) = Some ref
  ∧ heap w !! ref = Some task
  ∧ obj_get "token" task = VObj tok
  ∧ is_str EmptyString (obj_get "txid" tok) = false
  ∧ is_undefined (obj_get "outputIndex" tok) = false.

(** The world a successful completion leaves. *)
Definition completed_world (w : World) (ref : loc) (task tok : obj) (u : string) (r : obj)
    : World :=
  {| ui := {| createOpen := createOpen (ui w);
              createTask := createTask (ui w);
              createAmount := createAmount (ui w);
              createLoading := createLoading (ui w);
              tasksLoading := tasksLoading (ui w);
              tasks := remove_selected ref (tasks (ui w));
              completeOpen := false;
              selectedTask := None;
              completeLoading := false |};
     heap := heap w;
     toasts := toasts w ++ [ToastDark "Congrats! Task complete 🎉"];
     console := console w ++ log_lines (obj_get "log" r);
     trace := trace w ++ [redeem_call task tok; CreateAction (complete_args task tok u)] |}.

(** *** Loading *)

(** The encrypted field of a basket output: field 1 of its decoded script. *)
Definition encrypted_field (task : obj) : Outcome string :=
  match pushdrop_decode svc (obj_get "outputScript" task) with
  | Ret fields =>
      match fields !! 1%nat with
      | Some field => Ret field
      | None => Throw (TypeError
          "The first argument must be of type string or an instance of Buffer, ArrayBuffer, or Array or an Array-like Object. Received undefined")
      end
  | Throw e => Throw e
  end.

(** What decoding and decrypting a basket output gives after the calls
    [tr]: the description, or the error of the step that failed. *)
Definition decrypted (tr : list call) (task : obj) : Outcome string :=
  match encrypted_field task with
  | Ret field => decrypt svc tr (from_hex field) "todo list" "1" "string"
  | Throw e => Throw e
  end.

(** The output decodes and decrypts to [d], whenever it is asked. *)
Definition readable (task : obj) (d : string) : Prop :=
  forall tr : list call, decrypted tr task = Ret d.

(** Decoding or decrypting the output fails, whenever it is asked. *)
Definition unreadable (task : obj) : Prop :=
  forall tr : list call, exists e : JsError, decrypted tr task = Throw e.

(** The task object of an output whose description is [d]. *)
Definition listed_task (task : obj) (d : string) : obj :=
  obj_lit
    [ "token" ::= VObj (obj_lit
        [ Spread (obj_get "envelope" task);
          "lockingScript" ::= obj_get "outputScript" task;
          "txid" ::= obj_get "txid" task;
          "outputIndex" ::= obj_get "vout" task ]);
      "sats" ::= obj_get "amount" task;
      "task" ::= VStr d ].

(** The object of the [catch] branch. *)
Definition placeholder (task : obj) : obj :=
  obj_lit [ Spread (VObj task); "task" ::= VStr UNABLE_TO_DECRYPT ].

Definition decoded_object (task : obj) (r : Outcome string) : obj :=
  match r with
  | Ret d => listed_task task d
  | Throw _ => placeholder task
  end.

(** The object of the output does not depend on when it is decoded. *)
Definition settled (task : obj) (o : obj) : Prop :=
  forall tr : list call, decoded_object task (decrypted tr task) = o.

(** The world after one basket output went through [decodeTask]. *)
Definition decoded_world (w : World) (task : obj) : World :=
  {| ui := ui w;
     heap := <[fresh (dom (heap w)) := decoded_object task (decrypted (trace w) task)]> (heap w);
     toasts := toasts w;
     console := console w ++
       match decrypted (trace w) task with
       | Ret _ => []
       | Throw e => [ConsoleError (Some "Error decrypting task:") e]
       end;
     trace := trace w ++
       match encrypted_field task with
       | Ret field => [Decrypt (from_hex field) "todo list" "1" "string"]
       | Throw _ => []
       end |}.

(** A run of [decodeTask] over the outputs [outs] from world [w] ends in
    world [w'] with the new objects [locs]. *)
Inductive decoded_all : World -> list obj -> list loc -> World -> Prop :=
| decoded_nil (w : World) : decoded_all w [] [] w
| decoded_cons (w : World) (task : obj) (outs : list obj) (locs : list loc) (w' : World) :
    decoded_all (decoded_world w task) outs locs w' ->
    decoded_all w (task :: outs) (fresh (dom (heap w)) :: locs) w'.

Definition basket_query : call := GetTransactionOutputs "todo tokens" true true.

(** The basket answers the query made in [w] with the outputs [outs]. *)
Definition basket_returns (w : World) (outs : list obj) : Prop :=
  getTransactionOutputs svc (trace w) "todo tokens" true true = Ret outs.

(** The query made in [w] fails with [e]. *)
Definition basket_fails (w : World) (e : JsError) : Prop :=
  getTransactionOutputs svc (trace w) "todo tokens" true true = Throw e.

Definition asked (w : World) : World :=
  {| ui := ui w; heap := heap w; toasts := toasts w; console := console w;
     trace := trace w ++ [basket_query] |}.

(** The world the loading effect leaves after the run that ended in [w']
    with the new objects [locs]. *)
Definition loaded_world (w' : World) (locs : list loc) : World :=
  {| ui := with_tasksLoading false (with_tasks (rev locs) (ui w'));
     heap := heap w'; toasts := toasts w'; console := console w'; trace := trace w' |}.

(** The world after a failed basket query. *)
Definition load_failed_world (w : World) (e : JsError) : World :=
  if is_str "ERR_NO_METANET_IDENTITY" (code e) then
    {| ui := with_tasksLoading false (ui w); heap := heap w; toasts := toasts w;
       console := console w; trace := trace w ++ [basket_query] |}
  else
    {| ui := with_tasksLoading false (ui w); heap := heap w;
       toasts := toasts w ++ [ToastError ("Failed to load ToDo tasks! Error: " +:+ message e)];
       console := console w ++ [ConsoleError None e];
       trace := trace w ++ [basket_query] |}.

(** The worlds the application can be in. *)
Inductive reachable : World -> Prop :=
| reachable_initial : reachable initial_world
| reachable_step (w : World) (a : action) :
    reachable w -> enabled w a -> reachable (snd (run svc a w)).

End Statements.

(** The objects the task list shows, in order. *)
Definition shown (w : World) : list obj := deref w <$> tasks (ui w).

(** The object has a token with a locking script, a transaction id and an
    output index. *)
Definition populated (task : obj) : Prop :=
  exists tok : obj,
    obj_get "token" task = VObj tok
    ∧ obj_has "lockingScript" tok = true
    ∧ obj_has "txid" tok = true
    ∧ obj_has "outputIndex" tok = true.

(** The references of the list are distinct live objects. *)
Definition well_formed (w : World) : Prop :=
  NoDup (tasks (ui w)) ∧ Forall (fun l => is_Some (heap w !! l)) (tasks (ui w)).

End Spec.
Export Spec.

(** ** Worlds and baskets to run the handlers on *)

Module Scenario.

Import Demo.

(** The user typed "Buy milk" for 1000 satoshis. *)
Definition milk_typed : World := typed "Buy milk" (of_Z 1000) initial_world.

Definition milk_ciphertext : bytes :=
  key_tag "todo list" "1" :: rev (Buffer_from "Buy milk").

Definition milk_script : string :=
  demo_script [Buffer_from TODO_PROTO_ADDR; milk_ciphertext].

Definition milk_answer : obj := [ ("txid", VStr "tx2"); ("rawTx", VStr "0100") ].

(** The user typed "Buy milk" for 499 satoshis. *)
Definition milk_too_cheap : World := typed "Buy milk" (of_Z 499) initial_world.

(** A basket output holding the task [description]. *)
Definition output_of (description txid : string) : obj :=
  [ ("txid", VStr txid);
    ("vout", VNum (of_Z 0));
    ("amount", VNum (of_Z 1000));
    ("outputScript",
     VStr (demo_script
             [Buffer_from TODO_PROTO_ADDR;
              key_tag "todo list" "1" :: rev (Buffer_from description)]));
    ("envelope", VObj [ ("rawTx", VStr "0100") ]) ].

(** A basket output whose script PushDrop cannot decode. *)
Definition corrupt_output (txid : string) : obj :=
  [ ("txid", VStr txid);
    ("vout", VNum (of_Z 0));
    ("amount", VNum (of_Z 1000));
    ("outputScript", VStr "zz");
    ("envelope", VObj [ ("rawTx", VStr "0100") ]) ].

Definition T1 : obj := output_of "Buy milk" "aa".
Definition T2 : obj := output_of "Walk the dog" "bb".
Definition T3 : obj := output_of "Pay rent" "cc".

(** A wallet whose basket holds three tasks, oldest first. *)
Definition three_tasks_wallet : Services := demo_services ledger_ok (Ret [T1; T2; T3]).

(** A wallet whose basket holds a corrupt token between two tasks. *)
Definition one_corrupt_wallet : Services :=
  demo_services ledger_ok (Ret [T1; corrupt_output "bb"; T3]).

(** A wallet whose basket holds one corrupt token. *)
Definition only_corrupt_wallet : Services :=
  demo_services ledger_ok (Ret [corrupt_output "aa"]).

(** A wallet without an identity yet, and one that is out of reach. *)
Definition no_identity : JsError :=
  {| code := VStr "ERR_NO_METANET_IDENTITY"; message := "No identity" |}.

Definition unreachable : JsError :=
  {| code := VStr "ERR_NETWORK"; message := "Network down" |}.

Definition no_identity_wallet : Services := demo_services ledger_ok (Throw no_identity).

Definition unreachable_wallet : Services := demo_services ledger_ok (Throw unreachable).

(** A wallet whose ledger answers without a transaction id. *)
Definition no_txid_wallet : Services := demo_services ledger_no_txid (Ret []).

Definition no_txid_answer : obj := [ ("rawTx", VStr "0100") ].

(** A wallet as [demo_services] makes them, except that its PushDrop
    refuses to redeem an output without a transaction id. *)
Definition strict_redeem (prevTxId : value) : Outcome string :=
  match prevTxId with
  | VStr t =>
      if String.eqb t EmptyString then Throw (Error "Invalid TXID") else Ret "unlock"
  | _ => Throw (Error "Invalid TXID")
  end.

Definition strict_services
    (ledger : list call -> ActionArgs -> Outcome obj)
    (basket_contents : Outcome (list obj)) : Services := {|
  encrypt := fun _ => demo_encrypt;
  decrypt := fun _ c p k _ => demo_decrypt c p k;
  pushdrop_create := fun _ fields _ _ => Ret (demo_script fields);
  pushdrop_decode := demo_decode;
  pushdrop_redeem := fun _ _ _ prevTxId _ _ _ => strict_redeem prevTxId;
  createAction := ledger;
  getTransactionOutputs := fun _ _ _ _ => basket_contents;
  stampLogFormat := fun _ => "log";
  Number_toString := show_number
|}.

Definition strict_wallet : Services := strict_services ledger_ok (Ret []).

Definition strict_no_txid_wallet : Services := strict_services ledger_no_txid (Ret []).

(** A task object as the handlers build them. *)
Definition task_object (description txid : string) (outputIndex : value) : obj :=
  [ ("task", VStr description);
    ("sats", VNum (of_Z 1000));
    ("token", VObj [ ("lockingScript", VStr "00;");
                     ("txid", VStr txid);
                     ("outputIndex", outputIndex) ]) ].

Definition listing (objects : gmap loc obj) (refs : list loc) (sel : option loc) : World :=
  {| ui := with_selectedTask sel (with_tasks refs (with_tasksLoading false initial_ui));
     heap := objects; toasts := []; console := []; trace := [] |}.

(** The selected task has an empty transaction id. *)
Definition empty_txid_selected : World :=
  listing {[ 0%nat := task_object "Buy milk" EmptyString (VNum (of_Z 0)) ]}
    [0%nat] (Some 0%nat).

(** A wallet whose basket holds the same task twice. *)
Definition twins_wallet : Services := demo_services ledger_ok (Ret [T1; T1]).

(** The page loaded the two tasks, and the user clicked the lower one. *)
Definition twins_listed : World := snd (run twins_wallet PageLoads initial_world).

Definition twins_lower_selected : World :=
  snd (run twins_wallet (ClickTask 0%nat) twins_listed).

Definition twin : obj := listed_task T1 "Buy milk".

Definition twin_token : obj :=
  obj_lit [ Spread (obj_get "envelope" T1);
            "lockingScript" ::= obj_get "outputScript" T1;
            "txid" ::= obj_get "txid" T1;
            "outputIndex" ::= obj_get "vout" T1 ].

Definition twin_answer : obj := [ ("txid", VStr "tx4"); ("rawTx", VStr "0100") ].

End Scenario.

(** ** What the handlers do besides *)

Module Behaviour.

Section Statements.

Variable svc : Services.

(** The Actions among some calls. *)
Fixpoint ledger_actions (calls : list call) : nat :=
  match calls with
  | [] => 0
  | c :: calls' => (if is_ledger_action c then 1 else 0) + ledger_actions calls'
  end.

(** A call as the ToDo protocol makes them: under the protocol "todo list"
    and the key "1", on the basket "todo tokens", with the namespace address
    as the first of two fields, and with one output or one input per
    Action, the description of a redeeming Action being at most 128
    UTF-16 code units long. *)
Definition protocol_call (c : call) : Prop :=
  match c with
  | Encrypt _ p k => p = "todo list" ∧ k = "1"
  | Decrypt _ p k returnType => p = "todo list" ∧ k = "1" ∧ returnType = "string"
  | PushdropCreate fields p k =>
      p = "todo list" ∧ k = "1"
      ∧ exists c : bytes, fields = [Buffer_from TODO_PROTO_ADDR; c]
  | PushdropRedeem p k _ _ _ _ => p = "todo list" ∧ k = "1"
  | CreateAction args =>
      log args = EmptyString
      ∧ match outputs args, inputs args with
        | Some outs, None =>
            exists o : ActionOutput, outs = [o] ∧ basket o = "todo tokens"
        | None, Some ins =>
            (JsString.length (description args) <= 128)%nat
            ∧ exists (key : string) (input : ActionInput) (r : Redeem),
                ins = [(key, input)] ∧ outputsToRedeem input = [r]
        | _, _ => False
        end
  | GetTransactionOutputs b spendable includeEnvelope =>
      b = "todo tokens" ∧ spendable = true ∧ includeEnvelope = true
  end.

(** The decryption the loader asks for a basket output, if its script
    decodes and has a second field. *)
Definition decrypt_call (task : obj) : list call :=
  match encrypted_field svc task with
  | Ret field => [Decrypt (from_hex field) "todo list" "1" "string"]
  | Throw _ => []
  end.

(** The text of the completion Action before it is cut. *)
Definition full_description (task : obj) : string :=
  "Complete a TODO task: " +:+ dquote +:+ to_string svc (obj_get "task" task) +:+ dquote.

(** The second line of a list item: [`${x.sats} satoshis`]. *)
Definition item_secondary (x : obj) : string :=
  to_string svc (obj_get "sats" x) +:+ " satoshis".

(** The token of the task listed for a basket output. *)
Definition listed_token (task : obj) : obj :=
  obj_lit [ Spread (obj_get "envelope" task);
            "lockingScript" ::= obj_get "outputScript" task;
            "txid" ::= obj_get "txid" task;
            "outputIndex" ::= obj_get "vout" task ].

End Statements.

(** The names of the own properties of an object. *)
Definition keys (o : obj) : list string := fst <$> o.

(** The properties a token literal sets itself. *)
Definition token_keys : list string := [ "lockingScript"; "txid"; "outputIndex" ].

(** The selected task, if there is one, is a live object. *)
Definition selection_live (w : World) : Prop :=
  forall ref : loc, selectedTask (ui w) = Some ref -> is_Some (heap w !! ref).

(** A listed object: its text is a string, and it has a token unless it is
    the placeholder of an unreadable basket output. *)
Definition listable (o : obj) : Prop :=
  (exists d : string, obj_get "task" o = VStr d)
  ∧ (populated o ∨ obj_get "task" o = VStr UNABLE_TO_DECRYPT).

Definition all_listable (w : World) : Prop :=
  Forall (fun l => exists o : obj, heap w !! l = Some o ∧ listable o) (tasks (ui w)).

End Behaviour.
Export Behaviour.

(** ** More worlds to run the handlers on *)

Module Cases.

Import Demo Scenario.

(** A ledger that rejects every Action. *)
Definition ledger_rejects (_ : list call) (_ : ActionArgs) : Outcome obj :=
  Throw (Error "Transaction rejected").

Definition rejecting_wallet : Services := demo_services ledger_rejects (Ret []).

(** A wallet whose basket holds the task created by "Buy milk". *)
Definition milk_output : obj :=
  [ ("txid", VStr "tx2");
    ("vout", VNum (of_Z 0));
    ("amount", VNum (of_Z 1000));
    ("outputScript", VStr milk_script);
    ("envelope", VObj [ ("rawTx", VStr "0100") ]) ].

Definition milk_wallet : Services := demo_services ledger_ok (Ret [milk_output]).

(** The world after "Buy milk" was created with [wallet]. *)
Definition milk_created (wallet : Services) : World :=
  snd (run wallet SubmitCreate milk_typed).

(** The page loaded a corrupt token, and the user clicked its placeholder. *)
Definition placeholder_selected : World :=
  snd (run only_corrupt_wallet (ClickTask 0%nat)
         (snd (run only_corrupt_wallet PageLoads initial_world))).

(** The page loaded three tasks, and the user clicked the oldest. *)
Definition oldest_selected : World :=
  snd (run three_tasks_wallet (ClickTask 0%nat)
         (snd (run three_tasks_wallet PageLoads initial_world))).

Definition milk_redeemed : obj := [ ("txid", VStr "tx4"); ("rawTx", VStr "0100") ].

(** "Buy milk" was created, the page loaded it from the basket, and the
    user clicked and completed it. *)
Definition milk_round : World :=
  snd (run milk_wallet SubmitComplete
         (snd (run milk_wallet (ClickTask 1%nat)
                 (snd (run milk_wallet PageLoads (milk_created milk_wallet)))))).

(** The letter e with an acute accent: two bytes, one UTF-16 code unit. *)
Definition e_acute : string :=
  String (ascii_of_nat 195) (String (ascii_of_nat 169) EmptyString).

(** A grinning face: four bytes, two UTF-16 code units. *)
Definition grinning_face : string :=
  String (ascii_of_nat 240)
    (String (ascii_of_nat 159)
       (String (ascii_of_nat 152) (String (ascii_of_nat 128) EmptyString))).

(** Sixty accented letters: 120 bytes, 60 UTF-16 code units. *)
Definition accented : string := String.concat EmptyString (replicate 60 e_acute).

(** 104 letters and a face: the face is units 127 and 128 of the
    description of its completion. *)
Definition face_at_the_cut : string :=
  String.concat EmptyString (replicate 104 "a") +:+ grinning_face.

(** A wallet whose basket holds the accented task. *)
Definition accented_output : obj := output_of accented "dd".

Definition accented_wallet : Services := demo_services ledger_ok (Ret [accented_output]).

Definition accented_redeemed : obj := [ ("txid", VStr "tx3"); ("rawTx", VStr "0100") ].

(** The user typed "Buy milk" for exactly 500 satoshis. *)
Definition milk_for_500 : World := typed "Buy milk" (of_Z 500) initial_world.

End Cases.

(** ** Stepping through a handler *)

Ltac step :=
  cbn [trace ui heap toasts console selectedTask with_completeLoading
       selected_token_prop selected_prop get_prop get_prop_opt thrown_or].

Ltac run_complete :=
  unfold handleCompleteSubmit, try_finally, try_catch;
  unfold mbind, M_bind, mret, M_ret, read, update, load, lift, request, throw,
    toast_error, toast_dark, console_write, with_ui, deref;
  step.

(** Every way through a handler: a case for each outcome of a call and of
    a test, the test of the length of the description apart. *)
Ltac split_paths :=
  repeat match goal with
         | |- context [match ?x with _ => _ end] =>
             lazymatch x with
             | Nat.ltb _ _ => fail
             | _ => idtac
             end;
             match type of x with
             | Outcome _ => destruct x eqn:?
             | value => destruct x eqn:?
             | bool => destruct x eqn:?
             | option _ => destruct x eqn:?
             end; step
         end.

Ltac run_create :=
  unfold handleCreateSubmit, try_finally, try_catch;
  unfold mbind, M_bind, mret, M_ret, read, update, request, alloc, print_log,
    toast_error, toast_dark, console_write, with_ui;
  step.

(** The calls of a path are protocol calls; [bound] proves that a
    description is short enough. *)
Ltac solve_calls bound :=
  repeat first [apply List.Forall_nil | apply List.Forall_cons];
  cbn [protocol_call log outputs inputs description outputsToRedeem basket];
  repeat match goal with
         | |- _ ∧ _ => split
         | |- _ = _ => reflexivity
         | |- (JsString.length _ <= 128)%nat => bound
         | |- exists _, _ => eexists
         end.

Ltac leaf_calls bound :=
  first
    [ solve [exists []; split; [by rewrite app_nil_r|]; split;
             [solve_calls bound|cbn; lia]]
    | solve [eexists [_]; split; [reflexivity|]; split;
             [solve_calls bound|cbn; lia]]
    | solve [eexists [_; _]; split; [by rewrite <- app_assoc|]; split;
             [solve_calls bound|cbn; lia]]
    | solve [eexists [_; _; _]; split; [by rewrite <- !app_assoc|]; split;
             [solve_calls bound|cbn; lia]] ].

(** ** Basic facts about numbers, objects and hexadecimal text *)

Lemma Finite_lt_iff (p q : Q) : lt (Finite p) (Finite q) = true <-> (p < q)%Q.
Proof.
  cbn. rewrite negb_true_iff. split.
  - intros H. apply Qnot_le_lt. intros Hle. apply Qle_bool_iff in Hle. congruence.
  - intros H. destruct (Qle_bool q p) eqn:E; [|done].
    apply Qle_bool_iff in E. exfalso. exact (Qlt_not_le _ _ H E).
Qed.

Lemma Finite_ge_iff (p q : Q) : ge (Finite p) (Finite q) = true <-> (q <= p)%Q.
Proof. cbn. apply Qle_bool_iff. Qed.

Lemma Finite_zero_iff (q : Q) : strict_eq (Finite q) (of_Z 0) = true <-> (q == 0)%Q.
Proof. cbn. apply Qeq_bool_iff. Qed.

(** An amount of at least 500 passes the three amount checks. *)
Lemma ge_500_checks (a : number) :
  ge a (of_Z 500) = true ->
  strict_eq a (of_Z 0) || isNaN a = false ∧ lt a (of_Z 500) = false.
Proof.
  destruct a as [| | |q]; cbn; try done.
  intros H. apply Qle_bool_iff in H. split.
  - rewrite orb_false_r. destruct (Qeq_bool q (inject_Z 0)) eqn:E; [|done].
    apply Qeq_bool_iff in E. rewrite E in H. by compute in H.
  - apply negb_false_iff. by apply Qle_bool_iff.
Qed.

(** No input is both valid and invalid. *)
Lemma valid_not_invalid (w : World) : valid_input w -> ~ invalid_input w.
Proof.
  intros [Hd Ha] H. apply ge_500_checks in Ha as [Ha1 Ha2].
  apply orb_false_iff in Ha1 as [Hz Hn].
  destruct H as [H|[H|[H|H]]]; congruence.
Qed.

Lemma is_str_iff (s : string) (v : value) : is_str s v = true <-> v = VStr s.
Proof.
  destruct v; cbn; try (split; [discriminate|congruence]).
  rewrite String.eqb_eq. split; congruence.
Qed.

Lemma is_undefined_iff (v : value) : is_undefined v = true <-> v = VUndefined.
Proof. destruct v; cbn; split; congruence. Qed.

Lemma pair_value_digits (x : Byte.byte) :
  pair_value (digit (Byte.to_N x / 16)) (digit (Byte.to_N x mod 16)) = Some x.
Proof. destruct x; reflexivity. Qed.

(** Decoding the hexadecimal text of a byte sequence gives it back. *)
Lemma from_hex_to_hex (b : bytes) : from_hex (to_hex b) = b.
Proof.
  induction b as [|x b IH]; [reflexivity|].
  cbn [to_hex from_hex]. rewrite pair_value_digits. by rewrite IH.
Qed.

Lemma Buffer_toString_from (s : string) : Buffer_toString (Buffer_from s) = s.
Proof. apply String.string_of_list_byte_of_string. Qed.

Lemma obj_get_set_eq (k : string) (v : value) (o : obj) :
  obj_get k (obj_set k v o) = v.
Proof.
  induction o as [|[k' v'] o IH]; cbn.
  - by rewrite String.eqb_refl.
  - destruct (String.eqb k k') eqn:E; cbn; rewrite ?String.eqb_refl, ?E; done.
Qed.

Lemma obj_get_set_ne (k k' : string) (v : value) (o : obj) :
  k ≠ k' -> obj_get k (obj_set k' v o) = obj_get k o.
Proof.
  intros Hne. induction o as [|[k2 v2] o IH]; cbn.
  - apply String.eqb_neq in Hne. by rewrite Hne.
  - destruct (String.eqb k' k2) eqn:E; cbn.
    + apply String.eqb_eq in E; subst k2. apply String.eqb_neq in Hne. by rewrite Hne.
    + by rewrite IH.
Qed.

(** A spread copies no property the spread value does not have. *)
Lemma obj_get_spread (k : string) (ps o : obj) :
  obj_has k ps = false ->
  obj_get k (fold_left (fun acc p => obj_set (fst p) (snd p) acc) ps o) = obj_get k o.
Proof.
  revert o. induction ps as [|[k' v'] ps IH]; intros o Hk; [done|].
  cbn in Hk. apply orb_false_iff in Hk as [Hk Hps].
  cbn [fold_left fst snd]. rewrite IH by done.
  apply obj_get_set_ne. by apply String.eqb_neq.
Qed.

Lemma fresh_cell (h : gmap loc obj) : h !! fresh (dom h) = None.
Proof. apply not_elem_of_dom. apply is_fresh. Qed.

Lemma deref_lookup (w : World) (l : loc) (o : obj) : heap w !! l = Some o -> deref w l = o.
Proof. unfold deref. by intros ->. Qed.

(** *** The fields of the objects the handlers build *)

Lemma created_task_task d a s (r : obj) : obj_get "task" (created_task d a s r) = VStr d.
Proof. reflexivity. Qed.

Lemma created_task_sats d a s (r : obj) : obj_get "sats" (created_task d a s r) = VNum a.
Proof. reflexivity. Qed.

Lemma created_task_token d a s (r : obj) :
  obj_get "token" (created_task d a s r) = VObj (created_token s r).
Proof. reflexivity. Qed.

Lemma created_token_lockingScript s (r : obj) :
  obj_get "lockingScript" (created_token s r) = VStr s.
Proof.
  unfold created_token, obj_lit. cbn [fold_left add_entry].
  rewrite !obj_get_set_ne by done. apply obj_get_set_eq.
Qed.

Lemma created_token_txid s (r : obj) :
  obj_get "txid" (created_token s r) = nullish_or (obj_get "txid" r) (VStr EmptyString).
Proof.
  unfold created_token, obj_lit. cbn [fold_left add_entry].
  rewrite obj_get_set_ne by done. apply obj_get_set_eq.
Qed.

Lemma created_token_outputIndex s (r : obj) :
  obj_get "outputIndex" (created_token s r) = VNum (of_Z 0).
Proof. unfold created_token, obj_lit. cbn [fold_left add_entry]. apply obj_get_set_eq. Qed.

Lemma listed_task_task (task : obj) d : obj_get "task" (listed_task task d) = VStr d.
Proof. reflexivity. Qed.

Lemma placeholder_task (task : obj) : obj_get "task" (placeholder task) = VStr UNABLE_TO_DECRYPT.
Proof. unfold placeholder, obj_lit. cbn [fold_left add_entry]. apply obj_get_set_eq. Qed.

(** The placeholder has the properties of the basket output and no others,
    its text apart. *)
Lemma placeholder_other (k : string) (task : obj) :
  k ≠ "task" -> obj_has k task = false -> obj_get k (placeholder task) = VUndefined.
Proof.
  intros Hk Hhas. unfold placeholder, obj_lit. cbn [fold_left add_entry own_props].
  rewrite obj_get_set_ne by done. by rewrite obj_get_spread.
Qed.

Lemma decoded_object_task (task : obj) (r : Outcome string) :
  obj_get "task" (decoded_object task r) =
  VStr match r with Ret d => d | Throw _ => UNABLE_TO_DECRYPT end.
Proof. destruct r; [apply listed_task_task|apply placeholder_task]. Qed.

(** *** Removing the selected reference *)

Lemma remove_selected_cons (ref x : loc) (l : list loc) :
  remove_selected ref (x :: l) = if Nat.eqb x ref then l else x :: remove_selected ref l.
Proof.
  unfold remove_selected. cbn [findIndex].
  destruct (Nat.eqb x ref); [reflexivity|].
  destruct (findIndex _ l); reflexivity.
Qed.

(** The first occurrence of the reference goes, the rest stays in place. *)
Lemma remove_selected_split (ref : loc) (l : list loc) :
  ref ∈ l ->
  exists before after,
    l = before ++ ref :: after ∧ (ref ∉ before)
    ∧ remove_selected ref l = before ++ after.
Proof.
  induction l as [|x l IH]; intros Hin; [by apply elem_of_nil in Hin|].
  rewrite remove_selected_cons. destruct (Nat.eqb x ref) eqn:E.
  - apply Nat.eqb_eq in E; subst x. exists [], l. repeat split; [apply not_elem_of_nil].
  - apply Nat.eqb_neq in E. apply elem_of_cons in Hin as [Hin|Hin]; [congruence|].
    destruct (IH Hin) as (before & after & Hl & Hnot & Hrem).
    exists (x :: before), after. rewrite Hl at 1. rewrite Hrem. repeat split.
    intros H. apply elem_of_cons in H as [H|H]; [congruence|done].
Qed.

Lemma remove_selected_absent (ref : loc) (l : list loc) :
  ref ∉ l -> remove_selected ref l = l.
Proof.
  induction l as [|x l IH]; intros Hnot; [reflexivity|].
  rewrite remove_selected_cons. apply not_elem_of_cons in Hnot as [Hne Hnot].
  apply not_eq_sym, Nat.eqb_neq in Hne. rewrite Hne. by rewrite IH.
Qed.

Lemma remove_selected_sublist (ref : loc) (l : list loc) : sublist (remove_selected ref l) l.
Proof.
  induction l as [|x l IH]; [done|].
  rewrite remove_selected_cons. destruct (Nat.eqb x ref).
  - by apply sublist_cons.
  - by apply sublist_skip.
Qed.

(** ** The creation handler *)

Section Create.

Variable svc : Services.

Lemma print_log_run (log : value) (w : World) :
  print_log svc log w =
  (Ret tt, {| ui := ui w; heap := heap w; toasts := toasts w;
              console := console w ++ log_lines svc log; trace := trace w |}).
Proof.
  unfold print_log, log_lines.
  destruct (negb (is_nullish log) && negb (is_str EmptyString log)); cbn.
  - reflexivity.
  - rewrite app_nil_r. by destruct w.
Qed.

(** A creation whose input fails a check stops at that check. *)
Lemma handleCreateSubmit_refused (w : World) :
  invalid_input w ->
  exists msg, msg ∈ validation_messages
    ∧ handleCreateSubmit svc w = (Ret tt, refused_world w msg).
Proof.
  intros H.
  unfold handleCreateSubmit, try_finally, try_catch.
  unfold mbind, M_bind, mret, M_ret, read.
  destruct (String.eqb (createTask (ui w)) EmptyString) eqn:Ed.
  { exists "Enter a task to complete!". split; [set_solver|reflexivity]. }
  destruct (strict_eq (createAmount (ui w)) (of_Z 0) || isNaN (createAmount (ui w))) eqn:Ez.
  { exists "Enter an amount for the new task!". split; [set_solver|reflexivity]. }
  destruct (lt (createAmount (ui w)) (of_Z 500)) eqn:El.
  { exists "The amount must be more than 500 satoshis!". split; [set_solver|reflexivity]. }
  exfalso. apply orb_false_iff in Ez as [Ez1 Ez2].
  apply String.eqb_neq in Ed.
  destruct H as [H|[H|[H|H]]]; congruence.
Qed.

(** A creation whose three calls succeed ends in [created_world]. *)
Lemma handleCreateSubmit_success (w : World) (c : bytes) (s : string) (r : obj) :
  valid_input w ->
  create_succeeds svc w c s r ->
  handleCreateSubmit svc w = (Ret tt, created_world svc w c s r).
Proof.
  intros [Hd Ha] (He & Hs & Hr).
  apply ge_500_checks in Ha as [Ha1 Ha2].
  apply String.eqb_neq in Hd.
  unfold handleCreateSubmit, try_finally, try_catch.
  unfold mbind, M_bind, mret, M_ret, read.
  rewrite Hd, Ha1, Ha2.
  unfold update, request, toast_dark, alloc, with_ui. cbn [trace ui heap toasts console].
  rewrite He. cbn [take create_calls] in Hs, Hr. unfold create_args in Hr.
  rewrite Hs. rewrite <- !app_assoc. cbn [app]. rewrite Hr.
  rewrite print_log_run. cbn [trace ui heap toasts console].
  unfold created_world, created_task, created_token, create_calls, create_args.
  rewrite <- ?app_assoc. reflexivity.
Qed.

(** Every input is valid or invalid. *)
Lemma valid_or_invalid (w : World) : valid_input w ∨ invalid_input w.
Proof.
  unfold valid_input, invalid_input.
  destruct (String.eqb (createTask (ui w)) EmptyString) eqn:Ed.
  { apply String.eqb_eq in Ed. tauto. }
  apply String.eqb_neq in Ed.
  destruct (createAmount (ui w)) as [| | |q]; cbn; try tauto.
  destruct (Qle_bool (inject_Z 500) q); cbn; tauto.
Qed.

(** The three ways a creation ends: refused by a check, stopped by a call
    that threw, or carried through. *)
Lemma handleCreateSubmit_cases (w : World) :
  (exists msg, invalid_input w ∧ handleCreateSubmit svc w = (Ret tt, refused_world w msg))
  ∨ (exists calls e,
        valid_input w
        ∧ handleCreateSubmit svc w = (Ret tt, create_failed_world w calls e))
  ∨ (exists c s r,
        valid_input w ∧ create_succeeds svc w c s r
        ∧ handleCreateSubmit svc w = (Ret tt, created_world svc w c s r)).
Proof.
  destruct (valid_or_invalid w) as [Hv|Hi].
  2:{ left. destruct (handleCreateSubmit_refused w Hi) as (msg & _ & Hrun). eauto. }
  right.
  destruct (encrypt svc (trace w) (Buffer_from (createTask (ui w))) "todo list" "1")
    as [c|e] eqn:He.
  2:{ left. eexists [_], e. split; [done|].
      destruct Hv as [Hd Ha]. apply ge_500_checks in Ha as [Ha1 Ha2].
      apply String.eqb_neq in Hd.
      unfold handleCreateSubmit, try_finally, try_catch.
      unfold mbind, M_bind, mret, M_ret, read.
      rewrite Hd, Ha1, Ha2.
      unfold update, request, with_ui. cbn [trace ui heap toasts console].
      rewrite He. reflexivity. }
  destruct (pushdrop_create svc (trace w ++ take 1 (create_calls w c EmptyString))
              [Buffer_from TODO_PROTO_ADDR; c] "todo list" "1") as [s|e] eqn:Hs.
  2:{ left. eexists [_; _], e. split; [done|].
      destruct Hv as [Hd Ha]. apply ge_500_checks in Ha as [Ha1 Ha2].
      apply String.eqb_neq in Hd.
      unfold handleCreateSubmit, try_finally, try_catch.
      unfold mbind, M_bind, mret, M_ret, read.
      rewrite Hd, Ha1, Ha2.
      unfold update, request, with_ui. cbn [trace ui heap toasts console].
      rewrite He. cbn [take create_calls] in Hs. rewrite Hs.
      cbn [trace ui heap toasts console]. rewrite <- !app_assoc. reflexivity. }
  destruct (createAction svc (trace w ++ take 2 (create_calls w c s))
              (create_args (createTask (ui w)) (createAmount (ui w)) s)) as [r|e] eqn:Hr.
  2:{ left. eexists [_; _; _], e. split; [done|].
      destruct Hv as [Hd Ha]. apply ge_500_checks in Ha as [Ha1 Ha2].
      apply String.eqb_neq in Hd.
      unfold handleCreateSubmit, try_finally, try_catch.
      unfold mbind, M_bind, mret, M_ret, read.
      rewrite Hd, Ha1, Ha2.
      unfold update, request, with_ui. cbn [trace ui heap toasts console].
      rewrite He. cbn [take create_calls] in Hs, Hr. unfold create_args in Hr.
      rewrite Hs. rewrite <- !app_assoc. cbn [app]. rewrite Hr.
      cbn [trace ui heap toasts console]. rewrite <- ?app_assoc. reflexivity. }
  right. exists c, s, r. split; [done|]. split; [done|].
  by apply handleCreateSubmit_success.
Qed.

End Create.

(** ** The completion handler *)

Section Complete.

Variable svc : Services.

Lemma handleCompleteSubmit_no_selection (w : World) :
  selectedTask (ui w) = None ->
  handleCompleteSubmit svc w =
  (Ret tt,
   rejected_world w [redeem_nothing]
     (thrown_or
        (pushdrop_redeem svc (trace w) "todo list" "1"
           VUndefined VUndefined VUndefined VUndefined)
        (Error "No task selected."))).
Proof.
  intros Hsel. run_complete. rewrite Hsel. step.
  destruct (pushdrop_redeem svc (trace w) _ _ _ _ _ _) as [u|e]; reflexivity.
Qed.

Lemma handleCompleteSubmit_incomplete (w : World) (ref : loc) (task tok : obj) :
  selectedTask (ui w) = Some ref ->
  heap w !! ref = Some task ->
  obj_get "token" task = VObj tok ->
  incomplete_token tok ->
  handleCompleteSubmit svc w =
  (Ret tt,
   rejected_world w [redeem_call task tok]
     (thrown_or (redeem_answer svc (trace w) task tok)
        (Error "Task data is incomplete or undefined."))).
Proof.
  intros Hsel Href Htok Hinc. run_complete. rewrite Hsel. step.
  rewrite Href. step. rewrite Htok. step.
  unfold redeem_answer, redeem_call.
  destruct (pushdrop_redeem svc (trace w) _ _ _ _ _ _) as [u|e]; [|reflexivity].
  step.
  destruct Hinc as [Ht|Ho].
  - rewrite Ht. reflexivity.
  - destruct (is_str EmptyString (obj_get "txid" tok)); [reflexivity|].
    rewrite Ho. reflexivity.
Qed.

(** A completion whose two calls succeed ends in [completed_world]. *)
Lemma handleCompleteSubmit_success
    (w : World) (ref : loc) (task tok : obj) (u : string) (r : obj) :
  submittable w ref task tok ->
  complete_succeeds svc w task tok u r ->
  handleCompleteSubmit svc w = (Ret tt, completed_world svc w ref task tok u r).
Proof.
  intros (Hsel & Href & Htok & Ht & Ho) [Hu Hr]. run_complete. rewrite Hsel. step.
  rewrite Href. step. rewrite Htok. step.
  unfold redeem_answer in Hu. rewrite Hu. rewrite Ht. step. rewrite Ho. step.
  unfold redeem_call, complete_args, complete_description in Hr.
  rewrite Hr. rewrite print_log_run. step.
  unfold completed_world, redeem_call, complete_args, complete_description.
  rewrite <- ?app_assoc. reflexivity.
Qed.

(** A completion stopped by a check: what it leaves behind. *)
Lemma handleCompleteSubmit_stopped
    (w : World) (c : call) (answer : Outcome string) (check : JsError) :
  stopped_at svc w c answer check ->
  handleCompleteSubmit svc w = (Ret tt, rejected_world w [c] (thrown_or answer check))
  ∧ is_ledger_action c = false.
Proof.
  intros [Hsel|ref task tok Hsel Href Htok Hinc].
  - split; [by apply handleCompleteSubmit_no_selection|reflexivity].
  - split; [by eapply handleCompleteSubmit_incomplete|reflexivity].
Qed.

Lemma unsubmittable_stopped (w : World) :
  unsubmittable w ->
  exists (c : call) (answer : Outcome string) (check : JsError),
    stopped_at svc w c answer check.
Proof.
  intros [Hsel|(ref & task & tok & Hsel & Href & Htok & Hinc)].
  - eexists _, _, _. by apply stopped_no_selection.
  - eexists _, _, _. by eapply stopped_incomplete.
Qed.

End Complete.

(** ** The loading effect *)

Section Load.

Variable svc : Services.

Lemma decodeTask_run (task : obj) (w : World) :
  decodeTask svc task w = (Ret (fresh (dom (heap w))), decoded_world svc w task).
Proof.
  unfold decodeTask, try_catch, decoded_world, decrypted, encrypted_field.
  unfold mbind, M_bind, mret, M_ret, lift, request, throw, alloc, console_write.
  destruct (pushdrop_decode svc (obj_get "outputScript" task)) as [fields|e];
    cbn [trace ui heap toasts console decoded_object].
  - destruct (fields !! 1%nat) as [field|]; cbn [trace ui heap toasts console].
    + destruct (decrypt svc (trace w) (from_hex field) "todo list" "1" "string") as [d|e];
        cbn [trace ui heap toasts console decoded_object].
      * rewrite app_nil_r. reflexivity.
      * reflexivity.
    + rewrite app_nil_r. reflexivity.
  - rewrite app_nil_r. reflexivity.
Qed.

(** The callback never throws, so the whole batch is always decoded. *)
Lemma mapM_decodeTask (outs : list obj) (w : World) :
  exists locs w',
    mapM (decodeTask svc) outs w = (Ret locs, w') ∧ decoded_all svc w outs locs w'.
Proof.
  revert w. induction outs as [|task outs IH]; intros w.
  - exists [], w. split; [reflexivity|constructor].
  - destruct (IH (decoded_world svc w task)) as (locs & w' & Hrun & Hall).
    exists (fresh (dom (heap w)) :: locs), w'. split; [|by constructor].
    cbn [mapM]. unfold mbind, M_bind at 1. rewrite decodeTask_run.
    unfold mbind, M_bind. rewrite Hrun. reflexivity.
Qed.

Lemma decoded_all_ui w outs locs w' : decoded_all svc w outs locs w' -> ui w' = ui w.
Proof. induction 1; [done|]. by rewrite IHdecoded_all. Qed.

Lemma decoded_all_toasts w outs locs w' :
  decoded_all svc w outs locs w' -> toasts w' = toasts w.
Proof. induction 1; [done|]. by rewrite IHdecoded_all. Qed.

Lemma decoded_all_length w outs locs w' :
  decoded_all svc w outs locs w' -> length locs = length outs.
Proof. induction 1; [done|]. cbn. by rewrite IHdecoded_all. Qed.

(** Objects that exist are never touched by a run. *)
Lemma decoded_all_heap w outs locs w' :
  decoded_all svc w outs locs w' -> heap w ⊆ heap w'.
Proof.
  induction 1; [done|]. etrans; [|exact IHdecoded_all].
  cbn [heap decoded_world]. apply insert_subseteq, fresh_cell.
Qed.

(** Every new reference is a cell that was free before the run. *)
Lemma decoded_all_fresh w outs locs w' :
  decoded_all svc w outs locs w' -> Forall (fun l => heap w !! l = None) locs.
Proof.
  induction 1; constructor.
  - apply fresh_cell.
  - eapply Forall_impl; [exact IHdecoded_all|]. cbn. intros l Hl.
    cbn [heap decoded_world] in Hl.
    apply lookup_insert_None in Hl. tauto.
Qed.

Lemma decoded_all_NoDup w outs locs w' :
  decoded_all svc w outs locs w' -> NoDup locs.
Proof.
  induction 1; constructor; [|done].
  intros Hin. apply decoded_all_fresh in H.
  rewrite Forall_forall in H. specialize (H _ Hin).
  cbn [heap decoded_world] in H. by rewrite lookup_insert_eq in H.
Qed.

(** Each new reference holds the object of its output: the listed task
    when decoding and decrypting succeeded at that point of the run, the
    placeholder otherwise. *)
Lemma decoded_all_objects w outs locs w' :
  decoded_all svc w outs locs w' ->
  Forall2 (fun task l =>
             exists tr, heap w' !! l = Some (decoded_object task (decrypted svc tr task)))
          outs locs.
Proof.
  induction 1; constructor; [|done].
  exists (trace w). apply decoded_all_heap in H.
  eapply lookup_weaken; [|exact H].
  cbn [heap decoded_world]. apply lookup_insert_eq.
Qed.

(** A run asks for decryptions only. *)
Lemma decoded_all_calls w outs locs w' :
  decoded_all svc w outs locs w' ->
  exists new, trace w' = trace w ++ new ∧ Forall (fun c => is_ledger_action c = false) new.
Proof.
  induction 1.
  - exists []. by rewrite app_nil_r.
  - destruct IHdecoded_all as (new & Htr & Hnew).
    cbn [trace decoded_world] in Htr.
    eexists. rewrite Htr, <- app_assoc. split; [reflexivity|].
    apply Forall_app. split; [|done].
    destruct (encrypted_field svc task); repeat constructor.
Qed.

Lemma loadTasks_success (w : World) (outs : list obj) :
  basket_returns svc w outs ->
  exists locs w',
    decoded_all svc (asked w) outs locs w'
    ∧ loadTasks svc w = (Ret tt, loaded_world w' locs).
Proof.
  intros Hq.
  destruct (mapM_decodeTask outs (asked w)) as (locs & w' & Hrun & Hall).
  exists locs, w'. split; [done|].
  unfold loadTasks, try_finally, try_catch.
  unfold mbind, M_bind, request. unfold basket_returns in Hq. rewrite Hq.
  unfold asked, basket_query in Hrun. rewrite Hrun. reflexivity.
Qed.

Lemma loadTasks_failure (w : World) (e : JsError) :
  basket_fails svc w e ->
  loadTasks svc w = (Ret tt, load_failed_world w e).
Proof.
  intros Hq.
  unfold loadTasks, try_finally, try_catch, load_failed_world.
  unfold mbind, M_bind, request. unfold basket_fails in Hq. rewrite Hq.
  destruct (is_str "ERR_NO_METANET_IDENTITY" (code e)); reflexivity.
Qed.

End Load.

(** ** The references of the list stay distinct and live *)

Section Invariant.

Variable svc : Services.

Lemma well_formed_initial : well_formed initial_world.
Proof. split; constructor. Qed.

Lemma handleCreateSubmit_well_formed (w : World) :
  well_formed w -> well_formed (snd (handleCreateSubmit svc w)).
Proof.
  intros [Hnd Hlive].
  destruct (handleCreateSubmit_cases svc w)
    as [(msg & _ & ->)|[(calls & e & _ & ->)|(c & s & r & _ & _ & ->)]];
    cbn [snd]; [done|done|].
  split; cbn [ui tasks heap created_world].
  - apply NoDup_cons. split; [|done].
    intros Hin. rewrite Forall_forall in Hlive. apply Hlive in Hin as [o Ho].
    by rewrite fresh_cell in Ho.
  - constructor.
    + rewrite lookup_insert_eq. by eexists.
    + eapply Forall_impl; [exact Hlive|]. cbn. intros l Hl.
      apply lookup_insert_is_Some'. by right.
Qed.

(** Whatever way a completion ends, no object changes, and the list is as
    before or has lost the selected reference. *)
Lemma handleCompleteSubmit_list (w : World) :
  let w' := snd (handleCompleteSubmit svc w) in
  heap w' = heap w
  ∧ (tasks (ui w') = tasks (ui w)
     ∨ exists ref, selectedTask (ui w) = Some ref
                   ∧ tasks (ui w') = remove_selected ref (tasks (ui w))).
Proof.
  run_complete. unfold print_log.
  destruct (selectedTask (ui w)) as [ref|]; step.
  2:{ destruct (pushdrop_redeem svc _ _ _ _ _ _ _); cbn; auto. }
  repeat match goal with
         | |- context [match ?x with _ => _ end] =>
             match type of x with
             | Outcome _ => destruct x eqn:?
             | value => destruct x eqn:?
             | bool => destruct x eqn:?
             | option _ => destruct x eqn:?
             end; step
         end; cbn; eauto.
Qed.

Lemma handleCompleteSubmit_well_formed (w : World) :
  well_formed w -> well_formed (snd (handleCompleteSubmit svc w)).
Proof.
  intros [Hnd Hlive].
  destruct (handleCompleteSubmit_list w) as [Hheap [Htasks|(ref & _ & Htasks)]];
    unfold well_formed; rewrite Hheap, Htasks; [done|].
  pose proof (remove_selected_sublist ref (tasks (ui w))) as Hsub. split.
  - by eapply sublist_NoDup.
  - apply Forall_forall. intros l Hl. rewrite Forall_forall in Hlive.
    apply Hlive. by eapply elem_of_sublist.
Qed.

Lemma loadTasks_well_formed (w : World) :
  well_formed w -> well_formed (snd (loadTasks svc w)).
Proof.
  intros Hwf.
  destruct (getTransactionOutputs svc (trace w) "todo tokens" true true)
    as [outs|e] eqn:Hq.
  - destruct (loadTasks_success svc w outs Hq) as (locs & w' & Hall & ->). cbn [snd].
    split; cbn [ui tasks heap loaded_world with_tasksLoading with_tasks].
    + apply NoDup_ListNoDup, List.NoDup_rev, NoDup_ListNoDup.
      exact (decoded_all_NoDup svc _ _ _ _ Hall).
    + apply Forall_forall. intros l Hl%list_elem_of_In%List.in_rev%list_elem_of_In.
      pose proof (decoded_all_objects svc _ _ _ _ Hall) as Hobjs.
      apply list_elem_of_lookup in Hl as [i Hi].
      destruct (Forall2_lookup_r _ _ _ _ _ Hobjs Hi) as (task & _ & tr & Hlook).
      by eexists.
  - rewrite (loadTasks_failure svc w e Hq). unfold load_failed_world.
    destruct (is_str _ _); exact Hwf.
Qed.

Lemma openCompleteModal_well_formed (ref : loc) (w : World) :
  well_formed w -> well_formed (snd (openCompleteModal ref w)).
Proof. intros Hwf. exact Hwf. Qed.

(** In every world the application can be in, the references of the list
    are distinct live objects. *)
Lemma reachable_well_formed (w : World) : reachable svc w -> well_formed w.
Proof.
  induction 1 as [|w a _ IH Ha]; [apply well_formed_initial|].
  destruct a; cbn [run];
    auto using loadTasks_well_formed, handleCreateSubmit_well_formed,
      handleCompleteSubmit_well_formed, openCompleteModal_well_formed.
Qed.

End Invariant.

(** ** Which listed objects have a token *)

Lemma obj_has_cons (k k' : string) (v : value) (o : obj) :
  obj_has k ((k', v) :: o) = String.eqb k k' || obj_has k o.
Proof. reflexivity. Qed.

Lemma obj_has_set_eq (k : string) (v : value) (o : obj) : obj_has k (obj_set k v o) = true.
Proof.
  induction o as [|[k' v'] o IH]; cbn [obj_set].
  - by rewrite obj_has_cons, String.eqb_refl.
  - destruct (String.eqb k k') eqn:E; rewrite obj_has_cons.
    + by rewrite String.eqb_refl.
    + by rewrite E, IH.
Qed.

Lemma obj_has_set_keep (k k' : string) (v : value) (o : obj) :
  obj_has k o = true -> obj_has k (obj_set k' v o) = true.
Proof.
  induction o as [|[k2 v2] o IH]; [done|].
  rewrite obj_has_cons. intros H. cbn [obj_set].
  destruct (String.eqb k' k2) eqn:E; rewrite obj_has_cons.
  - apply String.eqb_eq in E; subst k2. exact H.
  - apply orb_true_iff in H as [H|H]; [by rewrite H|].
    rewrite IH by done. apply orb_true_r.
Qed.

(** The task of a creation has a token with its three properties. *)
Lemma created_task_populated d a s (r : obj) : populated (created_task d a s r).
Proof.
  exists (created_token s r). split; [reflexivity|].
  unfold created_token, obj_lit. cbn [fold_left add_entry].
  repeat split; auto using obj_has_set_eq, obj_has_set_keep.
Qed.

(** So has the task of a readable basket output. *)
Lemma listed_task_populated (task : obj) (d : string) : populated (listed_task task d).
Proof.
  eexists. split; [reflexivity|].
  unfold obj_lit. cbn [fold_left add_entry].
  repeat split; auto using obj_has_set_eq, obj_has_set_keep.
Qed.

(** The placeholder of a basket output has none, since basket outputs
    have no [token] property. *)
Lemma placeholder_not_populated (task : obj) :
  obj_has "token" task = false -> ~ populated (placeholder task).
Proof.
  intros Hhas (tok & Htok & _).
  rewrite placeholder_other in Htok; done.
Qed.

(** ** The toy wallet keeps the contracts *)

Section DemoFacts.

Import Demo.

Lemma digit_not_semicolon (x : Byte.byte) :
  Ascii.eqb (digit (Byte.to_N x / 16)) ";"%char = false
  ∧ Ascii.eqb (digit (Byte.to_N x mod 16)) ";"%char = false.
Proof. destruct x; split; reflexivity. Qed.

Lemma append_String (a : ascii) (s t : string) : String a s +:+ t = String a (s +:+ t).
Proof. reflexivity. Qed.

Lemma split_fields_hex (f : bytes) (acc : list ascii) (rest : string) :
  split_fields acc (to_hex f +:+ ";" +:+ rest) =
  (fun fields =>
     String.string_of_list_ascii (rev acc ++ String.list_ascii_of_string (to_hex f))
     :: fields) <$> split_fields [] rest.
Proof.
  revert acc. induction f as [|x f IH]; intros acc.
  - change (to_hex [] +:+ ";" +:+ rest) with (String ";"%char rest).
    cbn. by rewrite app_nil_r.
  - cbn [to_hex]. rewrite !append_String. cbn [split_fields].
    destruct (digit_not_semicolon x) as [-> ->].
    rewrite IH. cbn [rev String.list_ascii_of_string].
    by rewrite <- !app_assoc.
Qed.

Lemma split_fields_script (fields : list bytes) :
  split_fields [] (demo_script fields) = Some (to_hex <$> fields).
Proof.
  induction fields as [|f fields IH]; [reflexivity|].
  cbn [demo_script fold_right]. rewrite split_fields_hex.
  fold (demo_script fields). rewrite IH. cbn.
  by rewrite String.string_of_list_ascii_of_string.
Qed.

Lemma demo_codec_round_trip ledger contents :
  codec_round_trip (demo_services ledger contents).
Proof.
  intros tr fields p k s Hs. cbn in Hs. injection Hs as <-.
  cbn. unfold demo_decode. by rewrite split_fields_script.
Qed.

Lemma demo_cipher_round_trip ledger contents :
  cipher_round_trip (demo_services ledger contents).
Proof.
  intros tr tr' plaintext c p k Hc. cbn in Hc. injection Hc as <-.
  cbn. unfold demo_decrypt. rewrite (Byte.byte_dec_lb eq_refl).
  by rewrite rev_involutive.
Qed.

End DemoFacts.

(** ** Creating a task *)

Section CreateClaims.

Variable svc : Services.

(** The loader reads a created token back: decoding a basket output that
    carries the script of a creation and decrypting its second field gives
    the description that was encrypted. *)
Lemma created_script_readable (tr : list call) (d : string) (c : bytes) (s : string)
    (out : obj) :
  codec_round_trip svc -> cipher_round_trip svc ->
  encrypt svc tr (Buffer_from d) "todo list" "1" = Ret c ->
  pushdrop_decode svc (VStr s) = Ret (to_hex <$> [Buffer_from TODO_PROTO_ADDR; c]) ->
  obj_get "outputScript" out = VStr s ->
  readable svc out d.
Proof.
  intros Hcodec Hcipher He Hs Hout tr'.
  unfold decrypted, encrypted_field. rewrite Hout, Hs. cbn [fmap list_fmap lookup list_lookup].
  rewrite from_hex_to_hex, (Hcipher _ tr' _ _ _ _ He). by rewrite Buffer_toString_from.
Qed.

(** C1. Round trip.  When the description is not empty, the amount is at
    least 500 and the creation goes through, the first task of the list
    has a token whose locking script PushDrop decodes to exactly two fields,
    the namespace address and the ciphertext, both in hexadecimal; the
    ciphertext read back from that text decrypts, under the protocol
    "todo list" and the key "1", to the description that was typed; and the
    loader reads that description from any basket output holding the
    script.  PushDrop and the encryption service are assumed to keep their
    contracts: decoding inverts creating, decrypting inverts encrypting. *)
Theorem createTask_round_trip (w : World) (c : bytes) (s : string) (r : obj) :
  codec_round_trip svc ->
  cipher_round_trip svc ->
  valid_input w ->
  create_succeeds svc w c s r ->
  let w' := snd (handleCreateSubmit svc w) in
  exists (ref : loc) (task tok : obj),
    tasks (ui w') !! 0%nat = Some ref
    ∧ heap w' !! ref = Some task
    ∧ obj_get "token" task = VObj tok
    ∧ pushdrop_decode svc (obj_get "lockingScript" tok)
      = Ret [to_hex (Buffer_from TODO_PROTO_ADDR); to_hex c]
    ∧ (forall tr : list call,
         decrypt svc tr (from_hex (to_hex c)) "todo list" "1" "string"
         = Ret (createTask (ui w)))
    ∧ (forall out : obj,
         obj_get "outputScript" out = obj_get "lockingScript" tok ->
         readable svc out (createTask (ui w))).
Proof.
  intros Hcodec Hcipher Hv Hok w'. subst w'.
  rewrite (handleCreateSubmit_success svc w c s r Hv Hok). cbn [snd].
  destruct Hok as (He & Hs & Hr).
  pose proof (Hcodec _ _ _ _ _ Hs) as Hdec.
  eexists _, _, _. split; [reflexivity|].
  split; [apply lookup_insert_eq|].
  split; [apply created_task_token|].
  rewrite created_token_lockingScript.
  split; [exact Hdec|]. split.
  - intros tr. rewrite from_hex_to_hex, (Hcipher _ tr _ _ _ _ He).
    by rewrite Buffer_toString_from.
  - intros out Hout. by eapply created_script_readable.
Qed.

(** C2. A creation with an empty description, or with an amount that is
    zero, not a number or below 500, is refused with one of the three
    validation messages; no call leaves the application, and the task list
    and its objects are as before. *)
Theorem createTask_rejects_invalid_input (w : World) :
  invalid_input w ->
  let w' := snd (handleCreateSubmit svc w) in
  fst (handleCreateSubmit svc w) = Ret tt
  ∧ (exists msg, msg ∈ validation_messages ∧ toasts w' = toasts w ++ [ToastError msg])
  ∧ trace w' = trace w
  ∧ tasks (ui w') = tasks (ui w)
  ∧ heap w' = heap w.
Proof.
  intros Hi w'. subst w'.
  destruct (handleCreateSubmit_refused svc w Hi) as (msg & Hmsg & ->).
  cbn [fst snd]. split; [reflexivity|]. split; [by exists msg|]. done.
Qed.

(** C3. A creation that goes through puts a new object at the head of the
    task list: it holds the description, the amount, and a token with the
    script PushDrop returned, the transaction id of the ledger (the empty
    string when the ledger gave none) and output index 0.  The tasks that
    were listed follow in their order, and no object that existed is
    changed. *)
Theorem createTask_prepends (w : World) (c : bytes) (s : string) (r : obj) :
  valid_input w ->
  create_succeeds svc w c s r ->
  let w' := snd (handleCreateSubmit svc w) in
  exists (ref : loc) (task tok : obj),
    tasks (ui w') = ref :: tasks (ui w)
    ∧ heap w !! ref = None
    ∧ heap w' !! ref = Some task
    ∧ obj_get "task" task = VStr (createTask (ui w))
    ∧ obj_get "sats" task = VNum (createAmount (ui w))
    ∧ obj_get "token" task = VObj tok
    ∧ obj_get "lockingScript" tok = VStr s
    ∧ obj_get "txid" tok = nullish_or (obj_get "txid" r) (VStr EmptyString)
    ∧ obj_get "outputIndex" tok = VNum (of_Z 0)
    ∧ (forall (l : loc) (o : obj), heap w !! l = Some o -> heap w' !! l = Some o).
Proof.
  intros Hv Hok w'. subst w'.
  rewrite (handleCreateSubmit_success svc w c s r Hv Hok). cbn [snd].
  eexists _, _, _. split; [reflexivity|].
  split; [apply fresh_cell|].
  split; [apply lookup_insert_eq|].
  split; [apply created_task_task|].
  split; [apply created_task_sats|].
  split; [apply created_task_token|].
  split; [apply created_token_lockingScript|].
  split; [apply created_token_txid|].
  split; [apply created_token_outputIndex|].
  intros l o Hl. cbn [heap created_world]. rewrite lookup_insert_ne; [done|].
  intros <-. by rewrite fresh_cell in Hl.
Qed.

End CreateClaims.

Lemma milk_valid : valid_input Scenario.milk_typed.
Proof. split; [discriminate|reflexivity]. Qed.

Lemma milk_succeeds :
  create_succeeds Demo.wallet Scenario.milk_typed
    Scenario.milk_ciphertext Scenario.milk_script Scenario.milk_answer.
Proof. repeat split. Qed.

Lemma createTask_round_trip_witness :
  codec_round_trip Demo.wallet
  ∧ cipher_round_trip Demo.wallet
  ∧ valid_input Scenario.milk_typed
  ∧ create_succeeds Demo.wallet Scenario.milk_typed
      Scenario.milk_ciphertext Scenario.milk_script Scenario.milk_answer
  ∧ exists (ref : loc) (task tok : obj),
      tasks (ui (snd (handleCreateSubmit Demo.wallet Scenario.milk_typed))) !! 0%nat
      = Some ref
      ∧ heap (snd (handleCreateSubmit Demo.wallet Scenario.milk_typed)) !! ref = Some task
      ∧ obj_get "token" task = VObj tok
      ∧ pushdrop_decode Demo.wallet (obj_get "lockingScript" tok)
        = Ret [to_hex (Buffer_from TODO_PROTO_ADDR); to_hex Scenario.milk_ciphertext]
      ∧ (forall tr : list call,
           decrypt Demo.wallet tr (from_hex (to_hex Scenario.milk_ciphertext))
             "todo list" "1" "string"
           = Ret "Buy milk")
      ∧ (forall out : obj,
           obj_get "outputScript" out = obj_get "lockingScript" tok ->
           readable Demo.wallet out "Buy milk").
Proof.
  split; [apply demo_codec_round_trip|].
  split; [apply demo_cipher_round_trip|].
  split; [exact milk_valid|].
  split; [exact milk_succeeds|].
  exact (createTask_round_trip Demo.wallet Scenario.milk_typed
           Scenario.milk_ciphertext Scenario.milk_script Scenario.milk_answer
           (demo_codec_round_trip _ _) (demo_cipher_round_trip _ _)
           milk_valid milk_succeeds).
Defined.

Lemma milk_too_cheap_invalid : invalid_input Scenario.milk_too_cheap.
Proof. right. right. right. reflexivity. Qed.

Lemma createTask_rejects_invalid_input_witness :
  invalid_input Scenario.milk_too_cheap
  ∧ toasts (snd (handleCreateSubmit Demo.wallet Scenario.milk_too_cheap))
    = [ToastError "The amount must be more than 500 satoshis!"]
  ∧ trace (snd (handleCreateSubmit Demo.wallet Scenario.milk_too_cheap)) = []
  ∧ tasks (ui (snd (handleCreateSubmit Demo.wallet Scenario.milk_too_cheap))) = [].
Proof.
  split; [exact milk_too_cheap_invalid|].
  destruct (createTask_rejects_invalid_input Demo.wallet Scenario.milk_too_cheap
              milk_too_cheap_invalid) as (_ & _ & Htr & Htasks & _).
  split; [reflexivity|]. split; [exact Htr|exact Htasks].
Defined.

Lemma createTask_prepends_witness :
  valid_input Scenario.milk_typed
  ∧ create_succeeds Demo.wallet Scenario.milk_typed
      Scenario.milk_ciphertext Scenario.milk_script Scenario.milk_answer
  ∧ exists (ref : loc) (task tok : obj),
      tasks (ui (snd (handleCreateSubmit Demo.wallet Scenario.milk_typed))) = [ref]
      ∧ heap (snd (handleCreateSubmit Demo.wallet Scenario.milk_typed)) !! ref = Some task
      ∧ obj_get "task" task = VStr "Buy milk"
      ∧ obj_get "sats" task = VNum (of_Z 1000)
      ∧ obj_get "token" task = VObj tok
      ∧ obj_get "lockingScript" tok = VStr Scenario.milk_script
      ∧ obj_get "txid" tok = VStr "tx2"
      ∧ obj_get "outputIndex" tok = VNum (of_Z 0).
Proof.
  split; [exact milk_valid|]. split; [exact milk_succeeds|].
  destruct (createTask_prepends Demo.wallet Scenario.milk_typed
              Scenario.milk_ciphertext Scenario.milk_script Scenario.milk_answer
              milk_valid milk_succeeds)
    as (ref & task & tok & H1 & _ & H3 & H4 & H5 & H6 & H7 & H8 & H9 & _).
  exists ref, task, tok. repeat split; assumption.
Defined.

(** ** Completing a task *)

Section CompleteClaims.

Variable svc : Services.

(** C7 (amended). A completion without a selected task, or of a task whose
    token has an empty transaction id or no output index, is rejected
    without an Action submitted: the one call made is the PushDrop call for
    the unlocking script, which comes before the checks, and the task list
    and its objects are as before.  When PushDrop answers, the error shown
    is that of the check, "No task selected." without a selection and
    "Task data is incomplete or undefined." otherwise; when PushDrop
    throws, the error shown is the one it threw. *)
Theorem completeTask_rejects_incomplete (w : World) :
  unsubmittable w ->
  let w' := snd (handleCompleteSubmit svc w) in
  exists (c : call) (answer : Outcome string) (check : JsError),
    stopped_at svc w c answer check
    ∧ fst (handleCompleteSubmit svc w) = Ret tt
    ∧ trace w' = trace w ++ [c]
    ∧ is_ledger_action c = false
    ∧ (forall u : string,
         answer = Ret u ->
         toasts w'
         = toasts w ++ [ToastError ("Error completing task: " +:+ message check)])
    ∧ (forall e : JsError,
         answer = Throw e ->
         toasts w' = toasts w ++ [ToastError ("Error completing task: " +:+ message e)])
    ∧ tasks (ui w') = tasks (ui w)
    ∧ length (tasks (ui w')) = length (tasks (ui w))
    ∧ heap w' = heap w.
Proof.
  intros Hun w'. subst w'.
  destruct (unsubmittable_stopped svc w Hun) as (c & answer & check & Hstop).
  destruct (handleCompleteSubmit_stopped svc w c answer check Hstop) as [-> Hc].
  exists c, answer, check. cbn [fst snd toasts trace ui tasks heap rejected_world].
  split; [exact Hstop|]. split; [reflexivity|]. split; [reflexivity|].
  split; [exact Hc|].
  split; [by intros u ->|]. split; [by intros e ->|]. done.
Qed.

(** C8. In every world the application can be in, a completion that goes
    through, of a selected task that is in the list, shortens the list by
    one.  The task is taken out by reference: it is no longer in the list,
    every other reference stays, also one whose object is equal to the
    removed one field by field, and the remaining references keep their
    order.  No object is changed. *)
Theorem completeTask_removes_by_identity
    (w : World) (ref : loc) (task tok : obj) (u : string) (r : obj) :
  reachable svc w ->
  submittable w ref task tok ->
  complete_succeeds svc w task tok u r ->
  ref ∈ tasks (ui w) ->
  let w' := snd (handleCompleteSubmit svc w) in
  S (length (tasks (ui w'))) = length (tasks (ui w))
  ∧ (ref ∉ tasks (ui w'))
  ∧ (forall twin : loc,
       twin ≠ ref -> heap w !! twin = Some task -> twin ∈ tasks (ui w) ->
       twin ∈ tasks (ui w'))
  ∧ (forall l : loc, l ≠ ref -> l ∈ tasks (ui w) -> l ∈ tasks (ui w'))
  ∧ (exists before after : list loc,
       tasks (ui w) = before ++ ref :: after ∧ tasks (ui w') = before ++ after)
  ∧ (forall l : loc, heap w' !! l = heap w !! l).
Proof.
  intros [Hnd _]%reachable_well_formed Hsub Hok Hin w'. subst w'.
  rewrite (handleCompleteSubmit_success svc w ref task tok u r Hsub Hok).
  cbn [snd ui tasks heap completed_world].
  destruct (remove_selected_split ref (tasks (ui w)) Hin)
    as (before & after & Hl & Hnot & ->).
  rewrite Hl in Hnd. apply NoDup_app in Hnd as (_ & Hdisj & Hnd).
  apply NoDup_cons in Hnd as [Hafter _].
  assert (Hothers : forall l : loc, l ≠ ref -> l ∈ tasks (ui w) -> l ∈ before ++ after).
  { intros l Hne. rewrite Hl, !elem_of_app, elem_of_cons. tauto. }
  split; [rewrite Hl, !length_app; cbn; lia|].
  split; [rewrite elem_of_app; tauto|].
  split; [intros twin Hne _; by apply Hothers|].
  split; [exact Hothers|].
  split; [by exists before, after|reflexivity].
Qed.

(** C10 (amended). When the ledger accepts a creation and its answer
    carries no transaction id, the task is listed all the same, with the
    empty string as the transaction id of its token.  Selecting that task
    and completing it asks PushDrop for the unlocking script, with that
    empty transaction id, and submits no Action: when PushDrop answers, the
    check on the transaction id rejects the completion with "Task data is
    incomplete or undefined."; when PushDrop throws, the completion ends
    with the error it threw.  The list keeps the task. *)
Theorem createTask_without_txid (w : World) (c : bytes) (s : string) (r : obj) :
  valid_input w ->
  create_succeeds svc w c s r ->
  is_nullish (obj_get "txid" r) = true ->
  let w1 := snd (handleCreateSubmit svc w) in
  exists (ref : loc) (task tok : obj),
    tasks (ui w1) = ref :: tasks (ui w)
    ∧ heap w1 !! ref = Some task
    ∧ obj_get "token" task = VObj tok
    ∧ obj_get "txid" tok = VStr EmptyString
    ∧ let w2 := snd (openCompleteModal ref w1) in
      let w3 := snd (handleCompleteSubmit svc w2) in
      trace w3 = trace w2 ++ [redeem_call task tok]
      ∧ is_ledger_action (redeem_call task tok) = false
      ∧ (forall u : string,
           redeem_answer svc (trace w2) task tok = Ret u ->
           toasts w3
           = toasts w2 ++
             [ToastError "Error completing task: Task data is incomplete or undefined."])
      ∧ (forall e : JsError,
           redeem_answer svc (trace w2) task tok = Throw e ->
           toasts w3
           = toasts w2 ++ [ToastError ("Error completing task: " +:+ message e)])
      ∧ tasks (ui w3) = tasks (ui w1).
Proof.
  intros Hv Hok Hnull w1. subst w1.
  rewrite (handleCreateSubmit_success svc w c s r Hv Hok). cbn [snd].
  set (w1 := created_world svc w c s r).
  set (ref := fresh (dom (heap w))).
  set (task := created_task (createTask (ui w)) (createAmount (ui w)) s r).
  assert (Htxid : obj_get "txid" (created_token s r) = VStr EmptyString).
  { rewrite created_token_txid. unfold nullish_or. by rewrite Hnull. }
  exists ref, task, (created_token s r).
  split; [reflexivity|]. split; [apply lookup_insert_eq|].
  split; [apply created_task_token|]. split; [exact Htxid|].
  set (w2 := snd (openCompleteModal ref w1)).
  assert (Hrun := handleCompleteSubmit_incomplete svc w2 ref task (created_token s r)).
  rewrite Hrun; [| reflexivity | apply lookup_insert_eq | apply created_task_token
                 | by left ].
  cbn [snd toasts trace ui tasks rejected_world].
  split; [reflexivity|]. split; [reflexivity|].
  split; [by intros u ->|]. split; [by intros e ->|reflexivity].
Qed.

End CompleteClaims.

Lemma empty_txid_unsubmittable : unsubmittable Scenario.empty_txid_selected.
Proof.
  right. eexists 0%nat, _, _. split; [reflexivity|].
  split; [reflexivity|]. split; [reflexivity|]. by left.
Qed.

Lemma completeTask_rejects_incomplete_witness :
  unsubmittable Scenario.empty_txid_selected
  ∧ toasts (snd (handleCompleteSubmit Demo.wallet Scenario.empty_txid_selected))
    = [ToastError "Error completing task: Task data is incomplete or undefined."]
  ∧ toasts (snd (handleCompleteSubmit Scenario.strict_wallet
                   Scenario.empty_txid_selected))
    = [ToastError "Error completing task: Invalid TXID"]
  ∧ tasks (ui (snd (handleCompleteSubmit Scenario.strict_wallet
                      Scenario.empty_txid_selected)))
    = [0%nat].
Proof.
  split; [exact empty_txid_unsubmittable|].
  destruct (completeTask_rejects_incomplete Scenario.strict_wallet
              Scenario.empty_txid_selected empty_txid_unsubmittable)
    as (c & answer & check & _ & _ & _ & _ & _ & _ & Htasks & _).
  split; [reflexivity|]. split; [reflexivity|exact Htasks].
Defined.

(** C7, as the specification words it, fails with a PushDrop that refuses
    an empty transaction id: the task is incomplete, and the error shown is
    PushDrop's, not that of a check. *)
Lemma completeTask_rejection_can_be_pushdrops :
  unsubmittable Scenario.empty_txid_selected
  ∧ ¬ rejected_by_check Scenario.strict_wallet Scenario.empty_txid_selected.
Proof.
  split; [exact empty_txid_unsubmittable|].
  intros (e & He & Ht).
  apply elem_of_cons in He as [->|He].
  { vm_compute in Ht. discriminate Ht. }
  apply list_elem_of_singleton in He as ->.
  vm_compute in Ht. discriminate Ht.
Qed.

Lemma twins_reachable : reachable Scenario.twins_wallet Scenario.twins_lower_selected.
Proof.
  apply reachable_step; [apply reachable_step; [constructor|exact I]|].
  apply list_elem_of_lookup. by exists 1%nat.
Qed.

Lemma twin_submittable :
  submittable Scenario.twins_lower_selected 0%nat Scenario.twin Scenario.twin_token.
Proof. repeat split. Qed.

Lemma twin_succeeds :
  complete_succeeds Scenario.twins_wallet Scenario.twins_lower_selected
    Scenario.twin Scenario.twin_token "unlock" Scenario.twin_answer.
Proof. repeat split. Qed.

Lemma twin_listed : 0%nat ∈ tasks (ui Scenario.twins_lower_selected).
Proof. apply list_elem_of_lookup. by exists 1%nat. Qed.

Lemma completeTask_removes_by_identity_witness :
  reachable Scenario.twins_wallet Scenario.twins_lower_selected
  ∧ submittable Scenario.twins_lower_selected 0%nat Scenario.twin Scenario.twin_token
  ∧ complete_succeeds Scenario.twins_wallet Scenario.twins_lower_selected
      Scenario.twin Scenario.twin_token "unlock" Scenario.twin_answer
  ∧ 0%nat ∈ tasks (ui Scenario.twins_lower_selected)
  ∧ tasks (ui Scenario.twins_lower_selected) = [1%nat; 0%nat]
  ∧ heap Scenario.twins_lower_selected !! 1%nat
    = heap Scenario.twins_lower_selected !! 0%nat
  ∧ (0%nat ∉ tasks (ui (snd (handleCompleteSubmit Scenario.twins_wallet
                                 Scenario.twins_lower_selected))))
  ∧ 1%nat ∈ tasks (ui (snd (handleCompleteSubmit Scenario.twins_wallet
                              Scenario.twins_lower_selected)))
  ∧ length (tasks (ui (snd (handleCompleteSubmit Scenario.twins_wallet
                              Scenario.twins_lower_selected))))
    = 1%nat.
Proof.
  split; [exact twins_reachable|].
  split; [exact twin_submittable|]. split; [exact twin_succeeds|].
  split; [exact twin_listed|]. split; [reflexivity|]. split; [reflexivity|].
  destruct (completeTask_removes_by_identity Scenario.twins_wallet
              Scenario.twins_lower_selected
              0%nat Scenario.twin Scenario.twin_token "unlock" Scenario.twin_answer
              twins_reachable twin_submittable twin_succeeds twin_listed)
    as (Hlen & Hgone & Htwin & _).
  split; [exact Hgone|]. split.
  - apply Htwin; [discriminate|reflexivity|].
    apply list_elem_of_lookup. by exists 0%nat.
  - exact (Nat.succ_inj _ 1%nat Hlen).
Defined.

Lemma milk_no_txid_succeeds :
  create_succeeds Scenario.no_txid_wallet Scenario.milk_typed
    Scenario.milk_ciphertext Scenario.milk_script Scenario.no_txid_answer.
Proof. repeat split. Qed.

Lemma createTask_without_txid_witness :
  valid_input Scenario.milk_typed
  ∧ create_succeeds Scenario.no_txid_wallet Scenario.milk_typed
      Scenario.milk_ciphertext Scenario.milk_script Scenario.no_txid_answer
  ∧ is_nullish (obj_get "txid" Scenario.no_txid_answer) = true
  ∧ exists (ref : loc) (task tok : obj),
      tasks (ui (snd (handleCreateSubmit Scenario.no_txid_wallet Scenario.milk_typed)))
      = [ref]
      ∧ heap (snd (handleCreateSubmit Scenario.no_txid_wallet Scenario.milk_typed)) !! ref
        = Some task
      ∧ obj_get "token" task = VObj tok
      ∧ obj_get "txid" tok = VStr EmptyString
      ∧ toasts (snd (handleCompleteSubmit Scenario.no_txid_wallet
                       (snd (openCompleteModal ref
                               (snd (handleCreateSubmit Scenario.no_txid_wallet
                                       Scenario.milk_typed))))))
        = [ToastDark "Task successfully created!";
           ToastError "Error completing task: Task data is incomplete or undefined."].
Proof.
  split; [exact milk_valid|]. split; [exact milk_no_txid_succeeds|].
  split; [reflexivity|].
  destruct (createTask_without_txid Scenario.no_txid_wallet Scenario.milk_typed
              Scenario.milk_ciphertext Scenario.milk_script Scenario.no_txid_answer
              milk_valid milk_no_txid_succeeds eq_refl)
    as (ref & task & tok & H1 & H2 & H3 & H4 & _ & _ & H5 & _).
  exists ref, task, tok. split; [exact H1|]. split; [exact H2|].
  split; [exact H3|]. split; [exact H4|].
  exact (H5 "unlock" eq_refl).
Defined.

Lemma milk_strict_no_txid_succeeds :
  create_succeeds Scenario.strict_no_txid_wallet Scenario.milk_typed
    Scenario.milk_ciphertext Scenario.milk_script Scenario.no_txid_answer.
Proof. repeat split. Qed.

(** C10, as the specification words it, fails with a PushDrop that refuses
    an empty transaction id: the task created without a transaction id is
    listed, and its completion ends with PushDrop's error before the check
    on the transaction id is reached. *)
Lemma no_txid_rejection_can_be_pushdrops :
  valid_input Scenario.milk_typed
  ∧ create_succeeds Scenario.strict_no_txid_wallet Scenario.milk_typed
      Scenario.milk_ciphertext Scenario.milk_script Scenario.no_txid_answer
  ∧ is_nullish (obj_get "txid" Scenario.no_txid_answer) = true
  ∧ tasks (ui (snd (handleCreateSubmit Scenario.strict_no_txid_wallet
                      Scenario.milk_typed)))
    = [0%nat]
  ∧ ¬ rejected_by_check Scenario.strict_no_txid_wallet
        (snd (openCompleteModal 0%nat
                (snd (handleCreateSubmit Scenario.strict_no_txid_wallet
                        Scenario.milk_typed)))).
Proof.
  split; [exact milk_valid|]. split; [exact milk_strict_no_txid_succeeds|].
  split; [reflexivity|]. split; [reflexivity|].
  intros (e & He & Ht).
  apply elem_of_cons in He as [->|He].
  { vm_compute in Ht. discriminate Ht. }
  apply list_elem_of_singleton in He as ->.
  vm_compute in Ht. discriminate Ht.
Qed.

(** ** Loading the tasks *)

Section LoadClaims.

Variable svc : Services.

Lemma fmap_rev {A B : Type} (f : A -> B) (l : list A) : f <$> rev l = rev (f <$> l).
Proof.
  induction l as [|x l IH]; [reflexivity|].
  cbn [rev]. rewrite fmap_app, IH. reflexivity.
Qed.

Lemma readable_settled (task : obj) (d : string) :
  readable svc task d -> settled svc task (listed_task task d).
Proof. intros H tr. by rewrite H. Qed.

Lemma unreadable_settled (task : obj) :
  unreadable svc task -> settled svc task (placeholder task).
Proof. intros H tr. destruct (H tr) as [e ->]. reflexivity. Qed.

Lemma readable_all_settled (outs : list obj) (ds : list string) :
  Forall2 (readable svc) outs ds ->
  Forall2 (settled svc) outs (zip_with listed_task outs ds).
Proof.
  induction 1 as [|task d outs ds Hd _ IH]; constructor; [|done].
  by apply readable_settled.
Qed.

Lemma listed_descriptions (outs : list obj) (ds : list string) :
  length outs = length ds ->
  obj_get "task" <$> zip_with listed_task outs ds = VStr <$> ds.
Proof.
  revert ds. induction outs as [|task outs IH]; intros [|d ds] Hlen; try done.
  cbn [zip_with fmap list_fmap]. f_equal. apply IH. by injection Hlen.
Qed.

(** The objects of a run over outputs whose objects are settled. *)
Lemma decoded_all_settled w outs locs w' (os : list obj) :
  decoded_all svc w outs locs w' ->
  Forall2 (settled svc) outs os ->
  deref w' <$> locs = os.
Proof.
  intros Hall%decoded_all_objects. revert os.
  induction Hall as [|task l outs locs [tr Hl] _ IH]; intros os Hos.
  - by apply Forall2_nil_inv_l in Hos as ->.
  - apply Forall2_cons_inv_l in Hos as (o & os' & Ho & Hos' & ->).
    cbn [fmap list_fmap]. f_equal; [|by apply IH].
    rewrite (deref_lookup _ _ _ Hl). apply Ho.
Qed.

Lemma shown_loaded (w' : World) (locs : list loc) :
  shown (loaded_world w' locs) = rev (deref w' <$> locs).
Proof. unfold shown. cbn [ui tasks loaded_world with_tasksLoading with_tasks]. apply fmap_rev. Qed.

(** C4. When the basket returns its outputs oldest first, the loader
    replaces the task list by fresh objects, one per output and in the
    reverse order: the object of the last output comes first.  Each object
    is the decoded task of its output, or its placeholder; whatever the
    list held before is not in it any more. *)
Theorem listTasks_reverses (w : World) (outs : list obj) :
  basket_returns svc w outs ->
  let w' := snd (loadTasks svc w) in
  exists locs : list loc,
    tasks (ui w') = rev locs
    ∧ Forall2 (fun task l =>
                 exists tr, heap w' !! l = Some (decoded_object task (decrypted svc tr task)))
              outs locs
    ∧ NoDup locs
    ∧ Forall (fun l => heap w !! l = None) locs
    ∧ (forall os : list obj, Forall2 (settled svc) outs os -> shown w' = rev os).
Proof.
  intros Hq w'. subst w'.
  destruct (loadTasks_success svc w outs Hq) as (locs & w' & Hall & ->). cbn [snd].
  exists locs. split; [reflexivity|].
  split; [exact (decoded_all_objects svc _ _ _ _ Hall)|].
  split; [exact (decoded_all_NoDup svc _ _ _ _ Hall)|].
  split; [exact (decoded_all_fresh svc _ _ _ _ Hall)|].
  intros os Hos. rewrite shown_loaded. f_equal. by eapply decoded_all_settled.
Qed.

(** C5. When the basket holds readable outputs and one output that cannot
    be decoded or decrypted, the loader neither throws nor shows an error:
    the list gets one object per output, the tasks of the readable outputs
    with their decrypted descriptions and, in the place of the unreadable
    one, its placeholder with the fixed text. *)
Theorem listTasks_degrades_per_item
    (w : World) (good1 good2 : list obj) (bad : obj) (ds1 ds2 : list string) :
  basket_returns svc w (good1 ++ bad :: good2) ->
  Forall2 (readable svc) good1 ds1 ->
  Forall2 (readable svc) good2 ds2 ->
  unreadable svc bad ->
  let w' := snd (loadTasks svc w) in
  fst (loadTasks svc w) = Ret tt
  ∧ toasts w' = toasts w
  ∧ length (tasks (ui w')) = (length good1 + length good2 + 1)%nat
  ∧ shown w' = rev (zip_with listed_task good1 ds1
                      ++ placeholder bad :: zip_with listed_task good2 ds2)
  ∧ obj_get "task" <$> shown w'
    = rev ((VStr <$> ds1) ++ VStr UNABLE_TO_DECRYPT :: (VStr <$> ds2)).
Proof.
  intros Hq H1 H2 Hbad w'. subst w'.
  destruct (loadTasks_success svc w _ Hq) as (locs & w' & Hall & ->). cbn [fst snd].
  assert (Hos : Forall2 (settled svc) (good1 ++ bad :: good2)
                  (zip_with listed_task good1 ds1
                     ++ placeholder bad :: zip_with listed_task good2 ds2)).
  { apply Forall2_app; [by apply readable_all_settled|].
    constructor; [by apply unreadable_settled|by apply readable_all_settled]. }
  pose proof (decoded_all_settled _ _ _ _ _ Hall Hos) as Hobjs.
  split; [reflexivity|].
  split; [cbn [toasts loaded_world]; by rewrite (decoded_all_toasts svc _ _ _ _ Hall)|].
  split.
  { cbn [ui tasks loaded_world with_tasksLoading with_tasks].
    rewrite length_rev, (decoded_all_length svc _ _ _ _ Hall), length_app. cbn. lia. }
  rewrite shown_loaded, Hobjs. split; [reflexivity|].
  rewrite fmap_rev, fmap_app, fmap_cons, placeholder_task.
  by rewrite !listed_descriptions by (by eapply Forall2_length).
Qed.

(** C9. The loader always clears the loading flag.  When the basket query
    fails, the list is left as it was; the failure is shown as an error
    unless its code is ERR_NO_METANET_IDENTITY, in which case nothing is
    shown or logged. *)
Theorem listTasks_query_failure (w : World) :
  tasksLoading (ui (snd (loadTasks svc w))) = false
  ∧ forall e : JsError,
      basket_fails svc w e ->
      let w' := snd (loadTasks svc w) in
      tasks (ui w') = tasks (ui w)
      ∧ (code e = VStr "ERR_NO_METANET_IDENTITY" ->
         toasts w' = toasts w ∧ console w' = console w)
      ∧ (code e ≠ VStr "ERR_NO_METANET_IDENTITY" ->
         toasts w' = toasts w
                       ++ [ToastError ("Failed to load ToDo tasks! Error: " +:+ message e)]).
Proof.
  split.
  - destruct (getTransactionOutputs svc (trace w) "todo tokens" true true)
      as [outs|e] eqn:Hq.
    + destruct (loadTasks_success svc w outs Hq) as (locs & w' & _ & ->). reflexivity.
    + rewrite (loadTasks_failure svc w e Hq). unfold load_failed_world.
      destruct (is_str _ _); reflexivity.
  - intros e Hq w'. subst w'. rewrite (loadTasks_failure svc w e Hq).
    unfold load_failed_world. cbn [snd].
    destruct (is_str "ERR_NO_METANET_IDENTITY" (code e)) eqn:E; cbn [ui tasks toasts console].
    + apply is_str_iff in E. split; [reflexivity|]. split; [done|congruence].
    + split; [reflexivity|]. split; [|done].
      intros Hc. apply is_str_iff in Hc. congruence.
Qed.

End LoadClaims.

Lemma T_readable :
  readable Scenario.three_tasks_wallet Scenario.T1 "Buy milk"
  ∧ readable Scenario.three_tasks_wallet Scenario.T2 "Walk the dog"
  ∧ readable Scenario.three_tasks_wallet Scenario.T3 "Pay rent".
Proof. repeat split. Qed.

Lemma listTasks_reverses_witness :
  basket_returns Scenario.three_tasks_wallet initial_world
    [Scenario.T1; Scenario.T2; Scenario.T3]
  ∧ shown (snd (loadTasks Scenario.three_tasks_wallet initial_world))
    = [ listed_task Scenario.T3 "Pay rent";
        listed_task Scenario.T2 "Walk the dog";
        listed_task Scenario.T1 "Buy milk" ].
Proof.
  split; [reflexivity|].
  destruct (listTasks_reverses Scenario.three_tasks_wallet initial_world
              [Scenario.T1; Scenario.T2; Scenario.T3] eq_refl)
    as (locs & _ & _ & _ & _ & Hshown).
  destruct T_readable as (R1 & R2 & R3).
  apply (Hshown [ listed_task Scenario.T1 "Buy milk";
                  listed_task Scenario.T2 "Walk the dog";
                  listed_task Scenario.T3 "Pay rent" ]).
  repeat constructor; by apply readable_settled.
Defined.

Lemma corrupt_unreadable :
  unreadable Scenario.one_corrupt_wallet (Scenario.corrupt_output "bb").
Proof. intros tr. by eexists. Qed.

Lemma T1_readable :
  Forall2 (readable Scenario.one_corrupt_wallet) [Scenario.T1] ["Buy milk"].
Proof. repeat constructor. Qed.

Lemma T3_readable :
  Forall2 (readable Scenario.one_corrupt_wallet) [Scenario.T3] ["Pay rent"].
Proof. repeat constructor. Qed.

Lemma listTasks_degrades_per_item_witness :
  basket_returns Scenario.one_corrupt_wallet initial_world
    ([Scenario.T1] ++ Scenario.corrupt_output "bb" :: [Scenario.T3])
  ∧ Forall2 (readable Scenario.one_corrupt_wallet) [Scenario.T1] ["Buy milk"]
  ∧ Forall2 (readable Scenario.one_corrupt_wallet) [Scenario.T3] ["Pay rent"]
  ∧ unreadable Scenario.one_corrupt_wallet (Scenario.corrupt_output "bb")
  ∧ length (tasks (ui (snd (loadTasks Scenario.one_corrupt_wallet initial_world)))) = 3%nat
  ∧ obj_get "task" <$> shown (snd (loadTasks Scenario.one_corrupt_wallet initial_world))
    = [ VStr "Pay rent"; VStr UNABLE_TO_DECRYPT; VStr "Buy milk" ].
Proof.
  split; [reflexivity|]. split; [exact T1_readable|]. split; [exact T3_readable|].
  split; [exact corrupt_unreadable|].
  destruct (listTasks_degrades_per_item Scenario.one_corrupt_wallet initial_world
              [Scenario.T1] [Scenario.T3] (Scenario.corrupt_output "bb")
              ["Buy milk"] ["Pay rent"] eq_refl T1_readable T3_readable
              corrupt_unreadable)
    as (_ & _ & Hlen & _ & Hdesc).
  split; [exact Hlen|exact Hdesc].
Defined.

Lemma listTasks_query_failure_witness :
  basket_fails Scenario.no_identity_wallet initial_world Scenario.no_identity
  ∧ code Scenario.no_identity = VStr "ERR_NO_METANET_IDENTITY"
  ∧ tasksLoading (ui (snd (loadTasks Scenario.no_identity_wallet initial_world))) = false
  ∧ toasts (snd (loadTasks Scenario.no_identity_wallet initial_world)) = [].
Proof.
  split; [reflexivity|]. split; [reflexivity|].
  destruct (listTasks_query_failure Scenario.no_identity_wallet initial_world)
    as (Hflag & Hfail).
  split; [exact Hflag|].
  destruct (Hfail Scenario.no_identity eq_refl) as (_ & Hquiet & _).
  exact (proj1 (Hquiet eq_refl)).
Defined.

(** A failure of another kind is shown. *)
Lemma unreachable_shown :
  toasts (snd (loadTasks Scenario.unreachable_wallet initial_world))
  = [ToastError "Failed to load ToDo tasks! Error: Network down"]
  ∧ tasksLoading (ui (snd (loadTasks Scenario.unreachable_wallet initial_world))) = false.
Proof. split; reflexivity. Qed.

(** ** The placeholder of an unreadable token *)

(** An unreadable basket output is listed as an object without a token:
    basket outputs have no [token] property, and the [catch] branch copies
    the output as it is. *)
Lemma unreadable_listed_without_token
    (svc : Services) (w : World) (outs : list obj) (bad : obj) :
  basket_returns svc w outs ->
  bad ∈ outs ->
  unreadable svc bad ->
  obj_has "token" bad = false ->
  exists task : obj, task ∈ shown (snd (loadTasks svc w)) ∧ ~ populated task.
Proof.
  intros Hq Hin Hbad Hhas.
  destruct (loadTasks_success svc w outs Hq) as (locs & w' & Hall & ->). cbn [snd].
  pose proof (decoded_all_objects svc _ _ _ _ Hall) as Hobjs.
  apply list_elem_of_lookup in Hin as [i Hi].
  destruct (Forall2_lookup_l _ _ _ _ _ Hobjs Hi) as (l & Hl & tr & Hlook).
  destruct (Hbad tr) as [e He]. rewrite He in Hlook. cbn [decoded_object] in Hlook.
  exists (placeholder bad). split; [|by apply placeholder_not_populated].
  rewrite shown_loaded. apply list_elem_of_In, List.in_rev. rewrite List.rev_involutive.
  apply list_elem_of_In. rewrite <- (deref_lookup _ _ _ Hlook).
  apply list_elem_of_fmap_2, list_elem_of_lookup. by exists i.
Qed.

(** C6.  The invariant fails on the placeholder.  With a basket that holds
    one token PushDrop cannot decode, the loader lists one object that has
    the fixed text and the properties of the basket output, and neither a
    [token] nor a [sats] property; completing it stops on reading
    [token.txid], before any call. *)
Theorem placeholder_lacks_token :
  let w := snd (loadTasks Scenario.only_corrupt_wallet initial_world) in
  shown w = [placeholder (Scenario.corrupt_output "aa")]
  ∧ Forall (fun task =>
              obj_get "task" task = VStr UNABLE_TO_DECRYPT
              ∧ obj_get "token" task = VUndefined
              ∧ obj_get "sats" task = VUndefined
              ∧ obj_get "txid" task = VStr "aa") (shown w)
  ∧ let w' := snd (handleCompleteSubmit Scenario.only_corrupt_wallet
                     (snd (openCompleteModal 0%nat w))) in
    toasts w' = [ToastError
      "Error completing task: Cannot read properties of undefined (reading 'txid')"]
    ∧ trace w' = trace w
    ∧ tasks (ui w') = tasks (ui w).
Proof. vm_compute. repeat constructor. Qed.

(** ** Cutting the description of a completion *)

Lemma units_cases (a : ascii) :
  JsString.units a = 0%nat ∨ JsString.units a = 1%nat ∨ JsString.units a = 2%nat.
Proof.
  unfold JsString.units.
  destruct (N_of_ascii a <? 128)%N; [by right; left|].
  destruct (N_of_ascii a <? 192)%N; [by left|].
  destruct (N_of_ascii a <? 240)%N; [by right; left|by right; right].
Qed.

Lemma units_continuation (n : N) :
  (128 <= n < 192)%N -> JsString.units (ascii_of_N n) = 0%nat.
Proof.
  intros Hn. unfold JsString.units. rewrite N_ascii_embedding by lia.
  destruct (N.ltb_spec n 128); [lia|].
  destruct (N.ltb_spec n 192); [done|lia].
Qed.

Lemma length_three_bytes (second third : N) :
  (128 <= second < 192)%N -> (128 <= third < 192)%N ->
  JsString.length (JsString.three_bytes second third) = 1%nat.
Proof.
  intros H2 H3. unfold JsString.three_bytes. cbn [JsString.length].
  rewrite (units_continuation second H2), (units_continuation third H3).
  reflexivity.
Qed.

(** The half of a surrogate pair counts as one unit. *)
Lemma length_high_surrogate (a : ascii) (s : string) :
  JsString.length (JsString.high_surrogate a s) = 1%nat.
Proof.
  unfold JsString.high_surrogate. cbv zeta.
  match goal with
  | |- context [JsString.three_bytes (160 + ?x mod 16) (128 + ?y mod 64)] =>
      assert (x mod 16 < 16)%N by (by apply N.mod_upper_bound);
      assert (y mod 64 < 64)%N by (by apply N.mod_upper_bound);
      generalize dependent (x mod 16)%N; generalize dependent (y mod 64)%N
  end.
  intros third H3 second H2. apply length_three_bytes; lia.
Qed.

Lemma take_String (n : nat) (a : ascii) (s : string) :
  JsString.take n (String a s) =
  match JsString.units a, n with
  | 0%nat, _ => String a (JsString.take n s)
  | _, 0%nat => EmptyString
  | 1%nat, S n' => String a (JsString.take n' s)
  | _, 1%nat => JsString.high_surrogate a s
  | _, S (S n') => String a (JsString.take n' s)
  end.
Proof. reflexivity. Qed.

Lemma substring_from_start (n : nat) (s : string) :
  JsString.substring 0 n s = JsString.take n s.
Proof.
  unfold JsString.substring. rewrite Nat.max_0_l, Nat.min_0_l, Nat.sub_0_r.
  by destruct s.
Qed.

Lemma length_take_le (n : nat) (s : string) :
  (JsString.length (JsString.take n s) <= n)%nat.
Proof.
  revert n. induction s as [|a s IH]; intros n; [cbn; lia|].
  rewrite take_String.
  destruct (units_cases a) as [U|[U|U]]; rewrite U.
  - cbn [JsString.length]. rewrite U. apply IH.
  - destruct n as [|n]; [cbn; lia|].
    cbn [JsString.length]. rewrite U. specialize (IH n). lia.
  - destruct n as [|[|n]]; [cbn; lia| |].
    + by rewrite length_high_surrogate.
    + cbn [JsString.length]. rewrite U. specialize (IH n). lia.
Qed.

Lemma length_take_eq (n : nat) (s : string) :
  (n <= JsString.length s)%nat -> JsString.length (JsString.take n s) = n.
Proof.
  revert n. induction s as [|a s IH]; intros n; [cbn; lia|].
  rewrite take_String. cbn [JsString.length].
  destruct (units_cases a) as [U|[U|U]]; rewrite U; intros Hn.
  - cbn [JsString.length]. rewrite U. by apply IH.
  - destruct n as [|n]; [done|].
    cbn [JsString.length]. rewrite U, IH; lia.
  - destruct n as [|[|n]]; [done| |].
    + apply length_high_surrogate.
    + cbn [JsString.length]. rewrite U, IH; lia.
Qed.

(** What a cut keeps: bytes from the start of the text, and then, when the
    cut falls inside a surrogate pair, the first half of the pair. *)
Lemma take_split (n : nat) (s : string) :
  exists kept rest : string,
    s = kept +:+ rest
    ∧ (JsString.take n s = kept
       ∨ exists (a : ascii) (tail : string),
           rest = String a tail
           ∧ JsString.units a = 2%nat
           ∧ JsString.take n s = kept +:+ JsString.high_surrogate a tail).
Proof.
  revert n. induction s as [|a s IH]; intros n.
  { exists EmptyString, EmptyString. split; [done|by left]. }
  assert (Hstop : JsString.take n (String a s) = EmptyString ->
          exists kept rest : string,
            String a s = kept +:+ rest
            ∧ (JsString.take n (String a s) = kept
               ∨ exists (a' : ascii) (tail : string),
                   rest = String a' tail
                   ∧ JsString.units a' = 2%nat
                   ∧ JsString.take n (String a s)
                     = kept +:+ JsString.high_surrogate a' tail)).
  { intros E. exists EmptyString, (String a s). split; [done|by left]. }
  assert (Hgo : forall m : nat,
          JsString.take n (String a s) = String a (JsString.take m s) ->
          exists kept rest : string,
            String a s = kept +:+ rest
            ∧ (JsString.take n (String a s) = kept
               ∨ exists (a' : ascii) (tail : string),
                   rest = String a' tail
                   ∧ JsString.units a' = 2%nat
                   ∧ JsString.take n (String a s)
                     = kept +:+ JsString.high_surrogate a' tail)).
  { intros m E. destruct (IH m) as (kept & rest & Hs & Hcut).
    exists (String a kept), rest. rewrite append_String, <- Hs. split; [done|].
    rewrite E. destruct Hcut as [->|(a' & tail & Hr & Hu & ->)]; [by left|].
    right. exists a', tail. by rewrite append_String. }
  pose proof (take_String n a s) as E.
  destruct (units_cases a) as [U|[U|U]]; rewrite U in E.
  - by apply (Hgo n).
  - destruct n as [|n]; [by apply Hstop|by apply (Hgo n)].
  - destruct n as [|[|n]]; [by apply Hstop| |by apply (Hgo n)].
    exists EmptyString, (String a s). split; [done|].
    right. exists a, s. by rewrite E.
Qed.

Lemma description_cut_le (s : string) :
  (JsString.length
     (if (128 <? JsString.length s)%nat then JsString.substring 0 128 s else s)
   <= 128)%nat.
Proof.
  destruct (128 <? JsString.length s)%nat eqn:E.
  - rewrite substring_from_start. apply length_take_le.
  - apply Nat.ltb_ge in E. exact E.
Qed.

(** X6. The description of the completion Action is the text
    [Complete a TODO task: "..."] cut after 128 UTF-16 code units: it is
    never longer than 128 units, it is exactly 128 units long when the full
    text is longer, and it is the full text when that has at most 128
    units.  What a cut keeps is the start of the full text, followed, when
    the cut falls inside a surrogate pair, by the first half of that
    pair. *)
Theorem completion_description_bounded (svc : Services) (task : obj) :
  (JsString.length (complete_description svc task) <= 128)%nat
  ∧ ((128 < JsString.length (full_description svc task))%nat ->
     JsString.length (complete_description svc task) = 128%nat)
  ∧ ((JsString.length (full_description svc task) <= 128)%nat ->
     complete_description svc task = full_description svc task)
  ∧ (exists kept rest : string,
       full_description svc task = kept +:+ rest
       ∧ (complete_description svc task = kept
          ∨ exists (a : ascii) (tail : string),
              rest = String a tail
              ∧ JsString.units a = 2%nat
              ∧ complete_description svc task
                = kept +:+ JsString.high_surrogate a tail)).
Proof.
  unfold complete_description. fold (full_description svc task).
  split; [apply description_cut_le|].
  destruct (128 <? JsString.length (full_description svc task))%nat eqn:E.
  - apply Nat.ltb_lt in E. rewrite substring_from_start.
    split; [intros _; apply length_take_eq; lia|].
    split; [lia|]. apply take_split.
  - apply Nat.ltb_ge in E. split; [lia|]. split; [done|].
    exists (full_description svc task), EmptyString.
    split; [|by left]. clear E.
    induction (full_description svc task) as [|a s IH]; [done|].
    by rewrite append_String, <- IH.
Qed.

(** Sixty accented letters make a description of 144 bytes and 84 UTF-16
    code units: it is sent whole. *)
Lemma accented_description_whole :
  String.length (full_description Demo.wallet [("task", VStr Cases.accented)]) = 144%nat
  ∧ JsString.length (full_description Demo.wallet [("task", VStr Cases.accented)])
    = 84%nat
  ∧ complete_description Demo.wallet [("task", VStr Cases.accented)]
    = full_description Demo.wallet [("task", VStr Cases.accented)].
Proof. repeat split. Qed.

(** A description of 130 units whose units 127 and 128 are a surrogate
    pair is cut between the two: the first half of the pair is kept. *)
Lemma face_description_cut :
  JsString.length (full_description Demo.wallet [("task", VStr Cases.face_at_the_cut)])
  = 130%nat
  ∧ complete_description Demo.wallet [("task", VStr Cases.face_at_the_cut)]
    = "Complete a TODO task: " +:+ dquote
      +:+ String.concat EmptyString (replicate 104 "a")
      +:+ JsString.three_bytes 160 189
  ∧ JsString.length (complete_description Demo.wallet
                       [("task", VStr Cases.face_at_the_cut)])
    = 128%nat.
Proof. repeat split. Qed.

(** ** What a spread carries into a token *)

Lemma obj_has_keys (k : string) (o : obj) : obj_has k o = false <-> k ∉ keys o.
Proof.
  induction o as [|[k' v'] o IH].
  - split; [intros _; apply not_elem_of_nil|done].
  - rewrite obj_has_cons, orb_false_iff, IH. cbn [keys fmap list_fmap fst].
    rewrite not_elem_of_cons, String.eqb_neq. done.
Qed.

Lemma obj_get_absent (k : string) (o : obj) : obj_has k o = false -> obj_get k o = VUndefined.
Proof.
  induction o as [|[k' v'] o IH]; [done|].
  rewrite obj_has_cons, orb_false_iff. intros [E1 E2]. cbn [obj_get]. rewrite E1. auto.
Qed.

Lemma obj_get_spread_NoDup (k : string) (ps o : obj) :
  NoDup (keys ps) ->
  obj_get k (fold_left (fun acc p => obj_set (fst p) (snd p) acc) ps o)
  = if obj_has k ps then obj_get k ps else obj_get k o.
Proof.
  revert o. induction ps as [|[k' v'] ps IH]; intros o Hnd; [done|].
  apply NoDup_cons in Hnd as [Hk' Hnd]. change (k' ∉ keys ps) in Hk'.
  cbn [fold_left fst snd]. rewrite IH by done. rewrite obj_has_cons. cbn [obj_get].
  destruct (String.eqb k k') eqn:E.
  - apply String.eqb_eq in E; subst k'. apply obj_has_keys in Hk'.
    rewrite Hk'. cbn. apply obj_get_set_eq.
  - cbn. destruct (obj_has k ps); [done|].
    apply obj_get_set_ne. by apply String.eqb_neq.
Qed.

Lemma spread_onto_empty (k : string) (ps : obj) :
  NoDup (keys ps) ->
  obj_get k (fold_left (fun acc p => obj_set (fst p) (snd p) acc) ps []) = obj_get k ps.
Proof.
  intros Hnd. rewrite obj_get_spread_NoDup by done.
  destruct (obj_has k ps) eqn:E; [done|]. by rewrite (obj_get_absent k ps E).
Qed.

Lemma listed_task_token (task : obj) (d : string) :
  obj_get "token" (listed_task task d) = VObj (listed_token task).
Proof. reflexivity. Qed.

(** X17. A token keeps what was spread into it: every property of the
    ledger's answer, and of the envelope of a basket output, other than
    [lockingScript], [txid] and [outputIndex], is a property of the token
    with the same value.  The names of the properties of an object are
    distinct. *)
Theorem token_keeps_spread_properties (r : obj) (k : string) (s : string) :
  NoDup (keys r) ->
  k ∉ token_keys ->
  obj_get k (created_token s r) = obj_get k r
  ∧ forall task : obj,
      obj_get "envelope" task = VObj r ->
      obj_get k (listed_token task) = obj_get k r.
Proof.
  intros Hnd Hk.
  assert (k ≠ "lockingScript" ∧ k ≠ "txid" ∧ k ≠ "outputIndex") as (H1 & H2 & H3).
  { unfold token_keys in Hk. rewrite !not_elem_of_cons in Hk. tauto. }
  split.
  - unfold created_token, obj_lit. cbn [fold_left add_entry own_props].
    rewrite !obj_get_set_ne by done. by apply spread_onto_empty.
  - intros task Henv. unfold listed_token, obj_lit. rewrite Henv.
    cbn [fold_left add_entry own_props].
    rewrite !obj_get_set_ne by done. by apply spread_onto_empty.
Qed.

Lemma milk_answer_keys : NoDup (keys Scenario.milk_answer).
Proof.
  apply NoDup_cons. split; [|apply NoDup_singleton].
  by intros ?%list_elem_of_singleton.
Qed.

Lemma rawTx_not_token_key : "rawTx" ∉ token_keys.
Proof. unfold token_keys. rewrite !not_elem_of_cons. repeat split; try done. apply not_elem_of_nil. Qed.

Lemma token_keeps_spread_properties_witness :
  NoDup (keys Scenario.milk_answer)
  ∧ ("rawTx" ∉ token_keys)
  ∧ obj_get "rawTx" (created_token Scenario.milk_script Scenario.milk_answer)
    = VStr "0100".
Proof.
  split; [exact milk_answer_keys|]. split; [exact rawTx_not_token_key|].
  exact (proj1 (token_keeps_spread_properties Scenario.milk_answer "rawTx"
                  Scenario.milk_script milk_answer_keys rawTx_not_token_key)).
Defined.

(** ** Every way through the handlers *)

Section Paths.

Variable svc : Services.

(** The calls of a completion, whatever way it ends. *)
Lemma handleCompleteSubmit_calls (w : World) :
  exists new,
    trace (snd (handleCompleteSubmit svc w)) = trace w ++ new
    ∧ Forall protocol_call new
    ∧ (ledger_actions new <= 1)%nat.
Proof.
  run_complete. unfold print_log, console_write, mret, M_ret.
  destruct (selectedTask (ui w)) as [ref|]; step.
  2:{ destruct (pushdrop_redeem svc _ _ _ _ _ _ _); cbn [snd trace];
        leaf_calls ltac:(apply description_cut_le). }
  split_paths; cbn [snd trace]; leaf_calls ltac:(apply description_cut_le).
Qed.

(** What a completion never touches, and the flag it always clears. *)
Lemma handleCompleteSubmit_frame (w : World) :
  let w' := snd (handleCompleteSubmit svc w) in
  heap w' = heap w
  ∧ createOpen (ui w') = createOpen (ui w)
  ∧ createTask (ui w') = createTask (ui w)
  ∧ createAmount (ui w') = createAmount (ui w)
  ∧ createLoading (ui w') = createLoading (ui w)
  ∧ tasksLoading (ui w') = tasksLoading (ui w)
  ∧ completeLoading (ui w') = false.
Proof.
  run_complete. unfold print_log, console_write, mret, M_ret.
  destruct (selectedTask (ui w)) as [ref|]; step.
  2:{ destruct (pushdrop_redeem svc _ _ _ _ _ _ _); cbn; auto 10. }
  split_paths; cbn; auto 10.
Qed.

(** The two ways a completion ends. *)
Lemma handleCompleteSubmit_outcome (w : World) :
  let w' := snd (handleCompleteSubmit svc w) in
  (tasks (ui w') = tasks (ui w)
   ∧ selectedTask (ui w') = selectedTask (ui w)
   ∧ completeOpen (ui w') = completeOpen (ui w)
   ∧ exists msg, toasts w' = toasts w ++ [ToastError ("Error completing task: " +:+ msg)])
  ∨ (exists ref,
       selectedTask (ui w) = Some ref
       ∧ tasks (ui w') = remove_selected ref (tasks (ui w))
       ∧ selectedTask (ui w') = None
       ∧ completeOpen (ui w') = false
       ∧ toasts w' = toasts w ++ [ToastDark "Congrats! Task complete 🎉"]
       ∧ exists c args, trace w' = trace w ++ [c; CreateAction args]).
Proof.
  run_complete. unfold print_log, console_write, mret, M_ret.
  destruct (selectedTask (ui w)) as [ref|] eqn:Hsel; step.
  2:{ destruct (pushdrop_redeem svc _ _ _ _ _ _ _); cbn; rewrite ?Hsel; left; eauto 10. }
  split_paths; cbn; rewrite ?Hsel;
    first [ left; repeat split; try reflexivity; by eexists
          | right; eexists; repeat split; try reflexivity;
            eexists _, _; by rewrite <- app_assoc ].
Qed.

(** The calls of a creation, whatever way it ends. *)
Lemma handleCreateSubmit_calls (w : World) :
  exists new,
    trace (snd (handleCreateSubmit svc w)) = trace w ++ new
    ∧ Forall protocol_call new
    ∧ (ledger_actions new <= 1)%nat.
Proof.
  run_create. split_paths; cbn [snd trace]; leaf_calls ltac:(apply description_cut_le).
Qed.

(** A creation with a valid input starts with the encryption. *)
Lemma handleCreateSubmit_first_call (w : World) :
  valid_input w ->
  exists rest,
    trace (snd (handleCreateSubmit svc w))
    = trace w ++ Encrypt (Buffer_from (createTask (ui w))) "todo list" "1" :: rest.
Proof.
  intros [Hd Ha]. apply ge_500_checks in Ha as [Ha1 Ha2]. apply String.eqb_neq in Hd.
  run_create. rewrite Hd, Ha1, Ha2. step.
  split_paths; cbn [snd trace]; rewrite <- ?app_assoc; by eexists.
Qed.

(** The two ways a creation ends. *)
Lemma handleCreateSubmit_outcome (w : World) :
  let w' := snd (handleCreateSubmit svc w) in
  (tasks (ui w') = tasks (ui w)
   ∧ heap w' = heap w
   ∧ createTask (ui w') = createTask (ui w)
   ∧ createAmount (ui w') = createAmount (ui w)
   ∧ createOpen (ui w') = createOpen (ui w)
   ∧ exists msg, toasts w' = toasts w ++ [ToastError msg])
  ∨ (exists c s r,
       valid_input w ∧ create_succeeds svc w c s r ∧ w' = created_world svc w c s r).
Proof.
  destruct (handleCreateSubmit_cases svc w)
    as [(msg & _ & ->)|[(calls & e & _ & ->)|(c & s & r & Hv & Hok & ->)]]; cbn [snd].
  - left. cbn. repeat split. by eexists.
  - left. cbn. repeat split. by eexists.
  - right. by exists c, s, r.
Qed.

(** What a creation never touches, and the flag it always clears. *)
Lemma handleCreateSubmit_frame (w : World) :
  let w' := snd (handleCreateSubmit svc w) in
  heap w ⊆ heap w'
  ∧ selectedTask (ui w') = selectedTask (ui w)
  ∧ completeOpen (ui w') = completeOpen (ui w)
  ∧ completeLoading (ui w') = completeLoading (ui w)
  ∧ tasksLoading (ui w') = tasksLoading (ui w)
  ∧ createLoading (ui w') = false.
Proof.
  destruct (handleCreateSubmit_cases svc w)
    as [(msg & _ & ->)|[(calls & e & _ & ->)|(c & s & r & Hv & Hok & ->)]];
    cbn [snd]; cbn; repeat split; try done.
  apply insert_subseteq, fresh_cell.
Qed.

(** The calls of a run over basket outputs: the decryptions of the outputs
    whose script gave an encrypted field, in the order of the outputs. *)
Lemma decoded_all_trace w outs locs w' :
  decoded_all svc w outs locs w' ->
  trace w' = trace w ++ concat (decrypt_call svc <$> outs).
Proof.
  induction 1 as [w|w task outs locs w' _ IH]; [by rewrite app_nil_r|].
  rewrite IH. cbn [trace decoded_world fmap list_fmap concat].
  by rewrite <- app_assoc.
Qed.

Lemma decrypt_calls_protocol (outs : list obj) :
  Forall protocol_call (concat (decrypt_call svc <$> outs))
  ∧ ledger_actions (concat (decrypt_call svc <$> outs)) = 0%nat.
Proof.
  induction outs as [|task outs [IH1 IH2]]; [by split; [constructor|]|].
  cbn [fmap list_fmap concat]. unfold decrypt_call at 1 3.
  destruct (encrypted_field svc task); cbn [app]; [|done].
  split; [|exact IH2]. constructor; [by cbn|done].
Qed.

(** The calls of the loader, whatever way it ends. *)
Lemma loadTasks_calls (w : World) :
  exists new,
    trace (snd (loadTasks svc w)) = trace w ++ new
    ∧ Forall protocol_call new
    ∧ ledger_actions new = 0%nat.
Proof.
  destruct (getTransactionOutputs svc (trace w) "todo tokens" true true)
    as [outs|e] eqn:Hq.
  - destruct (loadTasks_success svc w outs Hq) as (locs & w' & Hall & ->). cbn [snd].
    apply decoded_all_trace in Hall. cbn [trace loaded_world]. rewrite Hall.
    cbn [trace asked]. rewrite <- app_assoc.
    destruct (decrypt_calls_protocol outs) as [H1 H2].
    eexists. split; [reflexivity|]. split.
    + constructor; [by cbn|exact H1].
    + cbn. exact H2.
  - rewrite (loadTasks_failure svc w e Hq). unfold load_failed_world.
    exists [basket_query]. destruct (is_str _ _); cbn; (split; [done|]);
      (split; [|done]); by repeat constructor.
Qed.

End Paths.

(** ** More on creating a task *)

Section CreateMore.

Variable svc : Services.

(** X1. The creation handler makes a call exactly when the typed text is
    not empty and the amount is at least 500; otherwise its record of calls
    is as before.  For a finite amount and a non-empty text, "at least 500"
    is the comparison of rationals, so 500 itself and amounts with a
    fraction pass. *)
Theorem createTask_calls_iff_valid (w : World) :
  (trace (snd (handleCreateSubmit svc w)) = trace w <-> invalid_input w)
  ∧ (trace (snd (handleCreateSubmit svc w)) ≠ trace w <-> valid_input w)
  ∧ (forall q : Q,
       createAmount (ui w) = Finite q -> createTask (ui w) ≠ EmptyString ->
       (valid_input w <-> (500 <= q)%Q)).
Proof.
  assert (Hcalls : valid_input w -> trace (snd (handleCreateSubmit svc w)) ≠ trace w).
  { intros Hv Heq. destruct (handleCreateSubmit_first_call svc w Hv) as [rest Hrest].
    rewrite Heq in Hrest. apply (f_equal length) in Hrest.
    rewrite length_app in Hrest. cbn in Hrest. lia. }
  assert (Hquiet : invalid_input w -> trace (snd (handleCreateSubmit svc w)) = trace w).
  { intros Hi. by destruct (handleCreateSubmit_refused svc w Hi) as (msg & _ & ->). }
  split; [|split].
  - split; [|exact Hquiet].
    intros Heq. destruct (valid_or_invalid w) as [Hv|Hi]; [|done].
    by destruct (Hcalls Hv).
  - split; [|exact Hcalls].
    intros Hne. destruct (valid_or_invalid w) as [Hv|Hi]; [done|].
    by destruct Hne; apply Hquiet.
  - intros q Hq Hd. unfold valid_input. rewrite Hq.
    change (of_Z 500) with (Finite (inject_Z 500)). rewrite Finite_ge_iff. tauto.
Qed.

(** X2. A creation is all or nothing.  Either it goes through, and the
    success toast is shown; or the task list, the objects, the typed text,
    the amount and the dialog are as before and one error is shown: the
    message of the check that failed or of the call that threw.  Both ways
    the loading flag of the dialog is cleared. *)
Theorem createTask_all_or_nothing (w : World) :
  let w' := snd (handleCreateSubmit svc w) in
  createLoading (ui w') = false
  ∧ ((tasks (ui w') = tasks (ui w)
      ∧ heap w' = heap w
      ∧ createTask (ui w') = createTask (ui w)
      ∧ createAmount (ui w') = createAmount (ui w)
      ∧ createOpen (ui w') = createOpen (ui w)
      ∧ exists msg, toasts w' = toasts w ++ [ToastError msg])
     ∨ (exists (c : bytes) (s : string) (r : obj),
          valid_input w
          ∧ create_succeeds svc w c s r
          ∧ toasts w' = toasts w ++ [ToastDark "Task successfully created!"])).
Proof.
  intros w'. subst w'.
  split; [apply handleCreateSubmit_frame|].
  destruct (handleCreateSubmit_outcome svc w) as [H|(c & s & r & Hv & Hok & Hw)].
  - by left.
  - right. exists c, s, r. rewrite Hw. done.
Qed.

(** X3. A creation that goes through has made exactly three calls, in this
    order: the encryption of the bytes of the text, [pushdrop.create] on the
    namespace address and the ciphertext, and one Action with a single
    output of the typed amount, under the script PushDrop returned, in the
    basket "todo tokens".  It then empties the text field, puts the amount
    back to 1000 and closes the dialog. *)
Theorem createTask_success_calls_and_reset
    (w : World) (c : bytes) (s : string) (r : obj) :
  valid_input w ->
  create_succeeds svc w c s r ->
  let w' := snd (handleCreateSubmit svc w) in
  trace w'
  = trace w ++
    [ Encrypt (Buffer_from (createTask (ui w))) "todo list" "1";
      PushdropCreate [Buffer_from TODO_PROTO_ADDR; c] "todo list" "1";
      CreateAction
        {| description := "Create a TODO task: " +:+ createTask (ui w);
           outputs := Some [ {| satoshis := createAmount (ui w);
                                script := s;
                                basket := "todo tokens";
                                output_description := "New ToDo list item" |} ];
           inputs := None;
           log := EmptyString |} ]
  ∧ createTask (ui w') = EmptyString
  ∧ createAmount (ui w') = of_Z 1000
  ∧ createOpen (ui w') = false
  ∧ createLoading (ui w') = false
  ∧ toasts w' = toasts w ++ [ToastDark "Task successfully created!"].
Proof.
  intros Hv Hok w'. subst w'.
  rewrite (handleCreateSubmit_success svc w c s r Hv Hok). cbn [snd]. done.
Qed.

End CreateMore.

Lemma milk_for_500_text : createTask (ui Cases.milk_for_500) ≠ EmptyString.
Proof. discriminate. Qed.

Lemma createTask_calls_iff_valid_witness :
  createAmount (ui Cases.milk_for_500) = Finite 500
  ∧ createTask (ui Cases.milk_for_500) ≠ EmptyString
  ∧ valid_input Cases.milk_for_500.
Proof.
  split; [reflexivity|]. split; [exact milk_for_500_text|].
  destruct (createTask_calls_iff_valid Demo.wallet Cases.milk_for_500) as (_ & _ & H).
  apply (H 500%Q eq_refl milk_for_500_text). discriminate.
Defined.

Lemma createTask_success_calls_and_reset_witness :
  valid_input Scenario.milk_typed
  ∧ create_succeeds Demo.wallet Scenario.milk_typed
      Scenario.milk_ciphertext Scenario.milk_script Scenario.milk_answer
  ∧ length (trace (snd (handleCreateSubmit Demo.wallet Scenario.milk_typed))) = 3%nat
  ∧ createTask (ui (snd (handleCreateSubmit Demo.wallet Scenario.milk_typed))) = EmptyString
  ∧ createAmount (ui (snd (handleCreateSubmit Demo.wallet Scenario.milk_typed))) = of_Z 1000.
Proof.
  split; [exact milk_valid|]. split; [exact milk_succeeds|].
  destruct (createTask_success_calls_and_reset Demo.wallet Scenario.milk_typed
              Scenario.milk_ciphertext Scenario.milk_script Scenario.milk_answer
              milk_valid milk_succeeds) as (Htr & Htext & Hamount & _).
  split; [by rewrite Htr|]. split; [exact Htext|exact Hamount].
Defined.

(** A ledger that rejects the Action leaves the typed task in the dialog. *)
Lemma rejected_creation_keeps_input :
  let w' := snd (handleCreateSubmit Cases.rejecting_wallet Scenario.milk_typed) in
  toasts w' = [ToastError "Transaction rejected"]
  ∧ tasks (ui w') = []
  ∧ createTask (ui w') = "Buy milk"
  ∧ length (trace w') = 3%nat.
Proof. repeat split. Qed.

(** ** More on completing a task *)

Section CompleteMore.

Variable svc : Services.

(** X4. A completion changes the list only when it goes through.  Either
    the success toast is shown, the first reference that is the selected
    object has left the list, the selection is cleared, the dialog is closed
    and the last call was the Action; or the list, the selection and the
    dialog are as before and one error is shown.  Both ways no object and
    nothing of the creation dialog changes, and the loading flag of the
    completion dialog is cleared. *)
Theorem completeTask_changes_list_only_on_success (w : World) :
  let w' := snd (handleCompleteSubmit svc w) in
  heap w' = heap w
  ∧ createTask (ui w') = createTask (ui w)
  ∧ createAmount (ui w') = createAmount (ui w)
  ∧ createOpen (ui w') = createOpen (ui w)
  ∧ completeLoading (ui w') = false
  ∧ ((tasks (ui w') = tasks (ui w)
      ∧ selectedTask (ui w') = selectedTask (ui w)
      ∧ completeOpen (ui w') = completeOpen (ui w)
      ∧ exists msg,
          toasts w' = toasts w ++ [ToastError ("Error completing task: " +:+ msg)])
     ∨ (exists ref : loc,
          selectedTask (ui w) = Some ref
          ∧ tasks (ui w') = remove_selected ref (tasks (ui w))
          ∧ selectedTask (ui w') = None
          ∧ completeOpen (ui w') = false
          ∧ toasts w' = toasts w ++ [ToastDark "Congrats! Task complete 🎉"]
          ∧ exists c args, trace w' = trace w ++ [c; CreateAction args])).
Proof.
  intros w'. subst w'.
  destruct (handleCompleteSubmit_frame svc w) as (H1 & H2 & H3 & H4 & _ & _ & H7).
  repeat (split; [assumption|]). apply handleCompleteSubmit_outcome.
Qed.

(** X5. A selected object without a [token] property cannot be completed:
    the handler stops on reading [token.txid], before any call, shows that
    error and leaves the list and the selection as they were. *)
Theorem completeTask_without_token (w : World) (ref : loc) (task : obj) :
  selectedTask (ui w) = Some ref ->
  heap w !! ref = Some task ->
  obj_get "token" task = VUndefined ->
  let w' := snd (handleCompleteSubmit svc w) in
  trace w' = trace w
  ∧ toasts w' = toasts w ++
      [ToastError
         "Error completing task: Cannot read properties of undefined (reading 'txid')"]
  ∧ tasks (ui w') = tasks (ui w)
  ∧ selectedTask (ui w') = selectedTask (ui w).
Proof.
  intros Hsel Href Htok. run_complete. rewrite Hsel. step.
  rewrite Href. step. rewrite Htok. step. cbn. by rewrite Hsel.
Qed.

End CompleteMore.

Lemma completeTask_without_token_witness :
  selectedTask (ui Cases.placeholder_selected) = Some 0%nat
  ∧ heap Cases.placeholder_selected !! 0%nat
    = Some (placeholder (Scenario.corrupt_output "aa"))
  ∧ obj_get "token" (placeholder (Scenario.corrupt_output "aa")) = VUndefined
  ∧ trace (snd (handleCompleteSubmit Scenario.only_corrupt_wallet
                  Cases.placeholder_selected))
    = trace Cases.placeholder_selected.
Proof.
  split; [reflexivity|]. split; [reflexivity|]. split; [reflexivity|].
  exact (proj1 (completeTask_without_token Scenario.only_corrupt_wallet
                  Cases.placeholder_selected 0%nat
                  (placeholder (Scenario.corrupt_output "aa"))
                  eq_refl eq_refl eq_refl)).
Defined.

(** ** More on loading the tasks *)

Section LoadMore.

Variable svc : Services.

Lemma decrypt_calls_length (outs : list obj) :
  (length (concat (decrypt_call svc <$> outs)) <= length outs)%nat.
Proof.
  induction outs as [|task outs IH]; [done|].
  cbn [fmap list_fmap concat]. rewrite length_app. unfold decrypt_call at 1.
  destruct (encrypted_field svc task); cbn; lia.
Qed.

(** X7. The loader asks the basket once, for the spendable outputs of
    "todo tokens" with their envelopes, and then asks for one decryption per
    output whose script decoded to at least two fields, in the order of the
    outputs, of the bytes that field spells in hexadecimal.  It makes no
    other call: no Action is submitted, and a failed query is its only
    call. *)
Theorem listTasks_calls (w : World) :
  let answer := getTransactionOutputs svc (trace w) "todo tokens" true true in
  let decryptions :=
    match answer with
    | Ret outs => concat (decrypt_call svc <$> outs)
    | Throw _ => []
    end in
  trace (snd (loadTasks svc w))
  = trace w ++ GetTransactionOutputs "todo tokens" true true :: decryptions
  ∧ ledger_actions decryptions = 0%nat
  ∧ (length decryptions
     <= match answer with Ret outs => length outs | Throw _ => 0 end)%nat.
Proof.
  cbn zeta.
  destruct (getTransactionOutputs svc (trace w) "todo tokens" true true)
    as [outs|e] eqn:Hq.
  - destruct (loadTasks_success svc w outs Hq) as (locs & w' & Hall & ->). cbn [snd].
    apply decoded_all_trace in Hall. cbn [trace loaded_world]. rewrite Hall.
    cbn [trace asked]. rewrite <- app_assoc.
    split; [reflexivity|]. split; [apply decrypt_calls_protocol|apply decrypt_calls_length].
  - rewrite (loadTasks_failure svc w e Hq). unfold load_failed_world.
    destruct (is_str _ _); cbn; done.
Qed.

(** X8. Loading twice from a basket that answers the same shows the same
    objects in the same order, built anew: no reference of the second list
    is a reference of the first.  The outputs are such that what they decode
    to does not depend on when they are decoded. *)
Theorem listTasks_twice (w : World) (outs os : list obj) :
  basket_returns svc w outs ->
  basket_returns svc (snd (loadTasks svc w)) outs ->
  Forall2 (settled svc) outs os ->
  let w1 := snd (loadTasks svc w) in
  let w2 := snd (loadTasks svc w1) in
  shown w2 = shown w1
  ∧ shown w1 = rev os
  ∧ length (tasks (ui w2)) = length outs
  ∧ (forall l : loc, l ∈ tasks (ui w2) -> l ∉ tasks (ui w1)).
Proof.
  intros Hq1 Hq2 Hos w1 w2. subst w2 w1.
  destruct (loadTasks_success svc w outs Hq1) as (locs1 & w1 & Hall1 & Hrun1).
  rewrite Hrun1 in Hq2 |- *. cbn [snd] in Hq2 |- *.
  destruct (loadTasks_success svc _ outs Hq2) as (locs2 & w2 & Hall2 & ->). cbn [snd].
  rewrite !shown_loaded.
  rewrite (decoded_all_settled svc _ _ _ _ _ Hall1 Hos).
  rewrite (decoded_all_settled svc _ _ _ _ _ Hall2 Hos).
  split; [reflexivity|]. split; [reflexivity|]. split.
  { cbn [ui tasks loaded_world with_tasksLoading with_tasks].
    by rewrite length_rev, (decoded_all_length svc _ _ _ _ Hall2). }
  cbn [ui tasks loaded_world with_tasksLoading with_tasks].
  intros l Hl2%list_elem_of_In%List.in_rev%list_elem_of_In
           Hl1%list_elem_of_In%List.in_rev%list_elem_of_In.
  pose proof (decoded_all_fresh svc _ _ _ _ Hall2) as Hfresh.
  rewrite Forall_forall in Hfresh. specialize (Hfresh _ Hl2).
  cbn [heap asked loaded_world] in Hfresh.
  pose proof (decoded_all_objects svc _ _ _ _ Hall1) as Hobjs.
  apply list_elem_of_lookup in Hl1 as [i Hi].
  destruct (Forall2_lookup_r _ _ _ _ _ Hobjs Hi) as (task & _ & tr & Hlook).
  congruence.
Qed.

(** X18. The second line of a list item is the [sats] of the object and
    the word "satoshis": for the task of a basket output it shows the
    amount of the output, and for the placeholder of an output, which has
    no [sats] property, it reads "undefined satoshis". *)
Theorem list_item_second_line (task : obj) (d : string) :
  obj_has "sats" task = false ->
  item_secondary svc (placeholder task) = "undefined satoshis"
  ∧ item_secondary svc (listed_task task d)
    = to_string svc (obj_get "amount" task) +:+ " satoshis".
Proof.
  intros Hsats. unfold item_secondary.
  rewrite placeholder_other by done. split; reflexivity.
Qed.

End LoadMore.

Lemma list_item_second_line_witness :
  obj_has "sats" (Scenario.corrupt_output "aa") = false
  ∧ item_secondary Scenario.only_corrupt_wallet (placeholder (Scenario.corrupt_output "aa"))
    = "undefined satoshis".
Proof.
  split; [reflexivity|].
  exact (proj1 (list_item_second_line Scenario.only_corrupt_wallet
                  (Scenario.corrupt_output "aa") EmptyString eq_refl)).
Defined.

Lemma three_settled :
  Forall2 (settled Scenario.three_tasks_wallet)
    [Scenario.T1; Scenario.T2; Scenario.T3]
    [ listed_task Scenario.T1 "Buy milk";
      listed_task Scenario.T2 "Walk the dog";
      listed_task Scenario.T3 "Pay rent" ].
Proof.
  destruct T_readable as (R1 & R2 & R3).
  repeat constructor; by apply readable_settled.
Qed.

Lemma listTasks_twice_witness :
  basket_returns Scenario.three_tasks_wallet initial_world
    [Scenario.T1; Scenario.T2; Scenario.T3]
  ∧ basket_returns Scenario.three_tasks_wallet
      (snd (loadTasks Scenario.three_tasks_wallet initial_world))
      [Scenario.T1; Scenario.T2; Scenario.T3]
  ∧ Forall2 (settled Scenario.three_tasks_wallet)
      [Scenario.T1; Scenario.T2; Scenario.T3]
      [ listed_task Scenario.T1 "Buy milk";
        listed_task Scenario.T2 "Walk the dog";
        listed_task Scenario.T3 "Pay rent" ]
  ∧ shown (snd (loadTasks Scenario.three_tasks_wallet
                  (snd (loadTasks Scenario.three_tasks_wallet initial_world))))
    = shown (snd (loadTasks Scenario.three_tasks_wallet initial_world)).
Proof.
  split; [reflexivity|]. split; [reflexivity|]. split; [exact three_settled|].
  exact (proj1 (listTasks_twice Scenario.three_tasks_wallet initial_world _ _
                  eq_refl eq_refl three_settled)).
Defined.

(** ** The handlers one after the other *)

Section Compositions.

Variable svc : Services.

Lemma listed_token_txid (task : obj) :
  obj_get "txid" (listed_token task) = obj_get "txid" task.
Proof.
  unfold listed_token, obj_lit. cbn [fold_left add_entry].
  rewrite obj_get_set_ne by done. apply obj_get_set_eq.
Qed.

Lemma listed_token_outputIndex (task : obj) :
  obj_get "outputIndex" (listed_token task) = obj_get "vout" task.
Proof. unfold listed_token, obj_lit. cbn [fold_left add_entry]. apply obj_get_set_eq. Qed.

Lemma listed_token_lockingScript (task : obj) :
  obj_get "lockingScript" (listed_token task) = obj_get "outputScript" task.
Proof.
  unfold listed_token, obj_lit. cbn [fold_left add_entry].
  rewrite !obj_get_set_ne by done. apply obj_get_set_eq.
Qed.

Lemma is_str_empty_false (t : string) : t ≠ EmptyString -> is_str EmptyString (VStr t) = false.
Proof. intros Ht. cbn. by apply String.eqb_neq. Qed.

(** X9. Create, then load.  After a creation that went through, loading
    from a basket that holds the output with the script of that creation
    shows one task, with the description that was typed and the amount of
    the output.  PushDrop and the encryption service keep their
    contracts. *)
Theorem create_then_list (w : World) (c : bytes) (s : string) (r out : obj) :
  codec_round_trip svc ->
  cipher_round_trip svc ->
  valid_input w ->
  create_succeeds svc w c s r ->
  let w1 := snd (run svc SubmitCreate w) in
  basket_returns svc w1 [out] ->
  obj_get "outputScript" out = VStr s ->
  let w2 := snd (run svc PageLoads w1) in
  shown w2 = [listed_task out (createTask (ui w))]
  ∧ obj_get "task" <$> shown w2 = [VStr (createTask (ui w))]
  ∧ obj_get "sats" <$> shown w2 = [obj_get "amount" out].
Proof.
  intros Hcodec Hcipher Hv Hok w1 Hq Hout w2. subst w2 w1. cbn [run] in *.
  assert (Hread : readable svc out (createTask (ui w))).
  { destruct Hok as (He & Hs & _).
    eapply created_script_readable; [done|done|exact He| |exact Hout].
    exact (Hcodec _ _ _ _ _ Hs). }
  destruct (loadTasks_success svc _ [out] Hq) as (locs & w' & Hall & ->). cbn [snd].
  rewrite shown_loaded.
  rewrite (decoded_all_settled svc _ _ _ _ [listed_task out (createTask (ui w))] Hall).
  - done.
  - repeat constructor. by apply readable_settled.
Qed.

(** X10. Create, then complete.  The task of a creation that went through
    with a transaction id can be clicked and completed at once: PushDrop is
    asked to redeem output 0 of that transaction, under the script and for
    the amount of the creation, the Action redeems that output under the
    key of the transaction id, and the list is again what it was before the
    creation. *)
Theorem create_then_complete
    (w : World) (c : bytes) (s : string) (r : obj) (t u : string) (r2 : obj) :
  valid_input w ->
  create_succeeds svc w c s r ->
  obj_get "txid" r = VStr t ->
  t ≠ EmptyString ->
  let ref := fresh (dom (heap w)) in
  let task := created_task (createTask (ui w)) (createAmount (ui w)) s r in
  let w2 := snd (run svc (ClickTask ref) (snd (run svc SubmitCreate w))) in
  complete_succeeds svc w2 task (created_token s r) u r2 ->
  let w3 := snd (run svc SubmitComplete w2) in
  tasks (ui w3) = tasks (ui w)
  ∧ trace w3
    = trace w2 ++
      [ PushdropRedeem "todo list" "1"
          (VStr t) (VNum (of_Z 0)) (VStr s) (VNum (createAmount (ui w)));
        CreateAction (complete_args svc task (created_token s r) u) ]
  ∧ exists input : ActionInput,
      inputs (complete_args svc task (created_token s r) u) = Some [(t, input)]
      ∧ index <$> outputsToRedeem input = [VNum (of_Z 0)].
Proof.
  intros Hv Hok Htx Ht ref task w2 Hdone w3. subst w3.
  assert (Htxid : obj_get "txid" (created_token s r) = VStr t).
  { by rewrite created_token_txid, Htx. }
  assert (Hw2 : w2 = snd (openCompleteModal ref (created_world svc w c s r))).
  { subst w2. cbn [run]. by rewrite (handleCreateSubmit_success svc w c s r Hv Hok). }
  assert (Hsub : submittable w2 ref task (created_token s r)).
  { rewrite Hw2. split; [reflexivity|]. split; [apply lookup_insert_eq|].
    split; [apply created_task_token|]. rewrite Htxid, created_token_outputIndex.
    split; [by apply is_str_empty_false|reflexivity]. }
  cbn [run]. rewrite (handleCompleteSubmit_success svc w2 ref task _ u r2 Hsub Hdone).
  cbn [snd ui tasks trace completed_world]. split; [|split].
  - rewrite Hw2. cbn [snd openCompleteModal ui tasks created_world].
    change (tasks (ui (snd (openCompleteModal ref (created_world svc w c s r)))))
      with (ref :: tasks (ui w)).
    rewrite remove_selected_cons. by rewrite Nat.eqb_refl.
  - unfold redeem_call.
    by rewrite Htxid, created_token_outputIndex, created_token_lockingScript.
  - unfold complete_args. cbn [inputs]. rewrite Htxid, created_token_outputIndex.
    by eexists.
Qed.

(** X11. Load, then complete.  A readable basket output with a transaction
    id and an output index is listed as a task that can be clicked and
    completed: PushDrop is asked to redeem that output, under its script and
    for its amount, the Action redeems it under the key of its transaction
    id, and the task leaves the list. *)
Theorem list_then_complete
    (w : World) (outs : list obj) (out : obj) (d t u : string) (r : obj) :
  basket_returns svc w outs ->
  out ∈ outs ->
  readable svc out d ->
  obj_get "txid" out = VStr t ->
  t ≠ EmptyString ->
  obj_get "vout" out ≠ VUndefined ->
  let w1 := snd (run svc PageLoads w) in
  exists ref : loc,
    ref ∈ tasks (ui w1)
    ∧ heap w1 !! ref = Some (listed_task out d)
    ∧ let w2 := snd (run svc (ClickTask ref) w1) in
      (complete_succeeds svc w2 (listed_task out d) (listed_token out) u r ->
       let w3 := snd (run svc SubmitComplete w2) in
       (ref ∉ tasks (ui w3))
       ∧ S (length (tasks (ui w3))) = length outs
       ∧ trace w3
         = trace w2 ++
           [ PushdropRedeem "todo list" "1"
               (VStr t) (obj_get "vout" out) (obj_get "outputScript" out)
               (obj_get "amount" out);
             CreateAction (complete_args svc (listed_task out d) (listed_token out) u) ]
       ∧ exists input : ActionInput,
           inputs (complete_args svc (listed_task out d) (listed_token out) u)
           = Some [(t, input)]
           ∧ index <$> outputsToRedeem input = [obj_get "vout" out]).
Proof.
  intros Hq Hin Hread Htx Ht Hvout w1. subst w1. cbn [run].
  destruct (loadTasks_success svc w outs Hq) as (locs & w' & Hall & ->). cbn [snd].
  pose proof (decoded_all_objects svc _ _ _ _ Hall) as Hobjs.
  pose proof (decoded_all_NoDup svc _ _ _ _ Hall) as Hnd.
  pose proof (decoded_all_length svc _ _ _ _ Hall) as Hlen.
  apply list_elem_of_lookup in Hin as [i Hi].
  destruct (Forall2_lookup_l _ _ _ _ _ Hobjs Hi) as (ref & Href & tr & Hlook).
  rewrite Hread in Hlook. cbn [decoded_object] in Hlook.
  assert (Hlisted : ref ∈ rev locs).
  { apply list_elem_of_In, List.in_rev. rewrite List.rev_involutive.
    apply list_elem_of_In, list_elem_of_lookup. by exists i. }
  exists ref. split; [exact Hlisted|]. split; [exact Hlook|].
  intros Hdone. set (w2 := snd (openCompleteModal ref (loaded_world w' locs))) in *.
  assert (Hsub : submittable w2 ref (listed_task out d) (listed_token out)).
  { split; [reflexivity|]. split; [exact Hlook|]. split; [apply listed_task_token|].
    rewrite listed_token_txid, listed_token_outputIndex, Htx.
    split; [by apply is_str_empty_false|].
    destruct (obj_get "vout" out); try reflexivity. by destruct Hvout. }
  rewrite (handleCompleteSubmit_success svc w2 ref _ _ u r Hsub Hdone).
  cbn [snd ui tasks trace completed_world].
  change (tasks (ui w2)) with (rev locs).
  destruct (remove_selected_split ref (rev locs) Hlisted)
    as (before & after & Hl & Hnot & ->).
  assert (Hnd' : NoDup (rev locs)).
  { by apply NoDup_ListNoDup, List.NoDup_rev, NoDup_ListNoDup. }
  rewrite Hl in Hnd'. apply NoDup_app in Hnd' as (_ & Hdisj & Hnd').
  apply NoDup_cons in Hnd' as [Hafter _].
  split; [rewrite elem_of_app; intros [?|?]; tauto|].
  split.
  { rewrite <- Hlen, <- (length_rev locs), Hl, !length_app. cbn. lia. }
  split.
  - unfold redeem_call.
    by rewrite listed_token_txid, listed_token_outputIndex, listed_token_lockingScript, Htx.
  - unfold complete_args. cbn [inputs].
    rewrite listed_token_txid, listed_token_outputIndex, Htx. by eexists.
Qed.

End Compositions.

Lemma milk_wallet_succeeds :
  create_succeeds Cases.milk_wallet Scenario.milk_typed
    Scenario.milk_ciphertext Scenario.milk_script Scenario.milk_answer.
Proof. repeat split. Qed.

Lemma create_then_list_witness :
  codec_round_trip Cases.milk_wallet
  ∧ cipher_round_trip Cases.milk_wallet
  ∧ valid_input Scenario.milk_typed
  ∧ create_succeeds Cases.milk_wallet Scenario.milk_typed
      Scenario.milk_ciphertext Scenario.milk_script Scenario.milk_answer
  ∧ basket_returns Cases.milk_wallet
      (snd (run Cases.milk_wallet SubmitCreate Scenario.milk_typed)) [Cases.milk_output]
  ∧ obj_get "outputScript" Cases.milk_output = VStr Scenario.milk_script
  ∧ obj_get "task" <$>
      shown (snd (run Cases.milk_wallet PageLoads
                    (snd (run Cases.milk_wallet SubmitCreate Scenario.milk_typed))))
    = [VStr "Buy milk"].
Proof.
  split; [apply demo_codec_round_trip|]. split; [apply demo_cipher_round_trip|].
  split; [exact milk_valid|]. split; [exact milk_wallet_succeeds|].
  split; [reflexivity|]. split; [reflexivity|].
  destruct (create_then_list Cases.milk_wallet Scenario.milk_typed
              Scenario.milk_ciphertext Scenario.milk_script Scenario.milk_answer
              Cases.milk_output
              (demo_codec_round_trip _ _) (demo_cipher_round_trip _ _)
              milk_valid milk_wallet_succeeds eq_refl eq_refl) as (_ & Htext & _).
  exact Htext.
Defined.

Lemma milk_txid : obj_get "txid" Scenario.milk_answer = VStr "tx2".
Proof. reflexivity. Qed.

Lemma tx2_not_empty : "tx2" ≠ EmptyString.
Proof. discriminate. Qed.

Lemma milk_completes :
  complete_succeeds Demo.wallet
    (snd (run Demo.wallet (ClickTask (fresh (dom (heap Scenario.milk_typed))))
            (snd (run Demo.wallet SubmitCreate Scenario.milk_typed))))
    (created_task (createTask (ui Scenario.milk_typed))
       (createAmount (ui Scenario.milk_typed)) Scenario.milk_script Scenario.milk_answer)
    (created_token Scenario.milk_script Scenario.milk_answer)
    "unlock" Cases.milk_redeemed.
Proof. repeat split. Qed.

Lemma create_then_complete_witness :
  valid_input Scenario.milk_typed
  ∧ create_succeeds Demo.wallet Scenario.milk_typed
      Scenario.milk_ciphertext Scenario.milk_script Scenario.milk_answer
  ∧ obj_get "txid" Scenario.milk_answer = VStr "tx2"
  ∧ "tx2" ≠ EmptyString
  ∧ tasks (ui (snd (run Demo.wallet SubmitComplete
                      (snd (run Demo.wallet
                              (ClickTask (fresh (dom (heap Scenario.milk_typed))))
                              (snd (run Demo.wallet SubmitCreate Scenario.milk_typed)))))))
    = [].
Proof.
  split; [exact milk_valid|]. split; [exact milk_succeeds|].
  split; [exact milk_txid|]. split; [exact tx2_not_empty|].
  exact (proj1 (create_then_complete Demo.wallet Scenario.milk_typed
                  Scenario.milk_ciphertext Scenario.milk_script Scenario.milk_answer
                  "tx2" "unlock" Cases.milk_redeemed
                  milk_valid milk_succeeds milk_txid tx2_not_empty milk_completes)).
Defined.

Lemma accented_listed : Cases.accented_output ∈ [Cases.accented_output].
Proof. apply elem_of_cons. by left. Qed.

Lemma accented_readable :
  readable Cases.accented_wallet Cases.accented_output Cases.accented.
Proof. repeat split. Qed.

Lemma accented_txid_not_empty : "dd" ≠ EmptyString.
Proof. discriminate. Qed.

Lemma accented_vout : obj_get "vout" Cases.accented_output ≠ VUndefined.
Proof. discriminate. Qed.

Lemma list_then_complete_witness :
  basket_returns Cases.accented_wallet initial_world [Cases.accented_output]
  ∧ Cases.accented_output ∈ [Cases.accented_output]
  ∧ readable Cases.accented_wallet Cases.accented_output Cases.accented
  ∧ obj_get "txid" Cases.accented_output = VStr "dd"
  ∧ "dd" ≠ EmptyString
  ∧ obj_get "vout" Cases.accented_output ≠ VUndefined
  ∧ description (complete_args Cases.accented_wallet
                   (listed_task Cases.accented_output Cases.accented)
                   (listed_token Cases.accented_output) "unlock")
    = full_description Cases.accented_wallet
        (listed_task Cases.accented_output Cases.accented)
  ∧ exists ref : loc,
      heap (snd (run Cases.accented_wallet PageLoads initial_world)) !! ref
      = Some (listed_task Cases.accented_output Cases.accented)
      ∧ length (tasks (ui (snd (run Cases.accented_wallet SubmitComplete
                                  (snd (run Cases.accented_wallet (ClickTask ref)
                                          (snd (run Cases.accented_wallet PageLoads
                                                  initial_world))))))))
        = 0%nat.
Proof.
  split; [reflexivity|]. split; [exact accented_listed|].
  split; [exact accented_readable|]. split; [reflexivity|].
  split; [exact accented_txid_not_empty|]. split; [exact accented_vout|].
  split; [reflexivity|].
  destruct (list_then_complete Cases.accented_wallet initial_world
              [Cases.accented_output] Cases.accented_output
              Cases.accented "dd" "unlock" Cases.accented_redeemed
              eq_refl accented_listed accented_readable eq_refl
              accented_txid_not_empty accented_vout)
    as (ref & _ & Hlook & Hdone).
  exists ref. split; [exact Hlook|].
  destruct Hdone as (_ & Hlen & _); [by repeat split|].
  exact (Nat.succ_inj _ 0%nat Hlen).
Defined.

(** ** What holds in every world the application can be in *)

Section Always.

Variable svc : Services.

(** The calls of one step of the application. *)
Lemma run_calls (a : action) (w : World) :
  exists new,
    trace (snd (run svc a w)) = trace w ++ new
    ∧ Forall protocol_call new
    ∧ (ledger_actions new
       <= match a with SubmitCreate | SubmitComplete => 1 | _ => 0 end)%nat.
Proof.
  destruct a; cbn [run];
    try (exists []; cbn; rewrite app_nil_r; repeat split; [constructor|lia]).
  - destruct (loadTasks_calls svc w) as (new & H1 & H2 & H3).
    exists new. rewrite H3. done.
  - apply handleCreateSubmit_calls.
  - apply handleCompleteSubmit_calls.
Qed.

Lemma loadTasks_frame (w : World) :
  let w' := snd (loadTasks svc w) in
  heap w ⊆ heap w'
  ∧ selectedTask (ui w') = selectedTask (ui w)
  ∧ createLoading (ui w') = createLoading (ui w)
  ∧ completeLoading (ui w') = completeLoading (ui w).
Proof.
  destruct (getTransactionOutputs svc (trace w) "todo tokens" true true)
    as [outs|e] eqn:Hq.
  - destruct (loadTasks_success svc w outs Hq) as (locs & w' & Hall & ->). cbn [snd].
    pose proof (decoded_all_ui svc _ _ _ _ Hall) as Hui.
    pose proof (decoded_all_heap svc _ _ _ _ Hall) as Hheap.
    cbn [ui heap loaded_world selectedTask createLoading completeLoading
         with_tasksLoading with_tasks].
    rewrite Hui. done.
  - cbn zeta. rewrite (loadTasks_failure svc w e Hq). unfold load_failed_world.
    destruct (is_str _ _); done.
Qed.

Lemma run_heap_grows (a : action) (w : World) : heap w ⊆ heap (snd (run svc a w)).
Proof.
  destruct a; cbn [run]; try done.
  - apply loadTasks_frame.
  - apply handleCreateSubmit_frame.
  - by destruct (handleCompleteSubmit_frame svc w) as [-> _].
Qed.

Lemma run_selection (a : action) (w : World) :
  selectedTask (ui (snd (run svc a w))) = selectedTask (ui w)
  ∨ selectedTask (ui (snd (run svc a w))) = None
  ∨ exists ref, a = ClickTask ref ∧ selectedTask (ui (snd (run svc a w))) = Some ref.
Proof.
  destruct a; cbn [run]; try (by left).
  - left. apply loadTasks_frame.
  - left. apply handleCreateSubmit_frame.
  - right. right. by eexists.
  - destruct (handleCompleteSubmit_outcome svc w) as [(_ & H & _)|(ref & _ & _ & H & _)];
      auto.
Qed.

Lemma run_loading (a : action) (w : World) :
  createLoading (ui w) = false ->
  completeLoading (ui w) = false ->
  createLoading (ui (snd (run svc a w))) = false
  ∧ completeLoading (ui (snd (run svc a w))) = false.
Proof.
  intros H1 H2. destruct a; cbn [run]; try done.
  - destruct (loadTasks_frame w) as (_ & _ & -> & ->). done.
  - destruct (handleCreateSubmit_frame svc w) as (_ & _ & _ & -> & _ & ->). done.
  - destruct (handleCompleteSubmit_frame svc w) as (_ & _ & _ & _ & -> & _ & ->). done.
Qed.

Lemma decoded_object_listable (task : obj) (r : Outcome string) :
  listable (decoded_object task r).
Proof.
  destruct r as [d|e]; cbn [decoded_object]; split.
  - by exists d.
  - left. apply listed_task_populated.
  - exists UNABLE_TO_DECRYPT. apply placeholder_task.
  - right. apply placeholder_task.
Qed.

Lemma created_task_listable d a s (r : obj) : listable (created_task d a s r).
Proof. split; [by exists d|]. left. apply created_task_populated. Qed.

Lemma run_listable (a : action) (w : World) :
  all_listable w -> all_listable (snd (run svc a w)).
Proof.
  unfold all_listable. intros Hall. destruct a; cbn [run]; try exact Hall.
  - destruct (getTransactionOutputs svc (trace w) "todo tokens" true true)
      as [outs|e] eqn:Hq.
    + destruct (loadTasks_success svc w outs Hq) as (locs & w' & Hrun & ->). cbn [snd].
      cbn [ui tasks heap loaded_world with_tasksLoading with_tasks].
      apply Forall_forall. intros l Hl%list_elem_of_In%List.in_rev%list_elem_of_In.
      pose proof (decoded_all_objects svc _ _ _ _ Hrun) as Hobjs.
      apply list_elem_of_lookup in Hl as [i Hi].
      destruct (Forall2_lookup_r _ _ _ _ _ Hobjs Hi) as (task & _ & tr & Hlook).
      eexists. split; [exact Hlook|apply decoded_object_listable].
    + rewrite (loadTasks_failure svc w e Hq). unfold load_failed_world.
      destruct (is_str _ _); exact Hall.
  - destruct (handleCreateSubmit_outcome svc w)
      as [(Ht & Hh & _)|(c & s & r & _ & _ & ->)].
    + by rewrite Ht, Hh.
    + cbn [ui tasks heap created_world]. constructor.
      * eexists. split; [apply lookup_insert_eq|apply created_task_listable].
      * eapply Forall_impl; [exact Hall|]. cbn. intros l (o & Hl & Ho).
        exists o. split; [|done]. rewrite lookup_insert_ne; [done|].
        intros <-. by rewrite fresh_cell in Hl.
  - destruct (handleCompleteSubmit_list svc w) as [Hheap [Htasks|(ref & _ & Htasks)]];
      rewrite Hheap, Htasks; [done|].
    apply Forall_forall. intros l Hl. rewrite Forall_forall in Hall.
    apply Hall. eapply elem_of_sublist; [exact Hl|apply remove_selected_sublist].
Qed.

(** X12. Every call the application ever makes follows the ToDo protocol:
    encryption, decryption, script creation and redemption are under the
    protocol "todo list" and the key "1", decryption asks for a string, a
    script is made of the namespace address and one more field, the basket
    is "todo tokens", asked for spendable outputs with their envelopes, and
    an Action has an empty log and either one output in that basket or one
    input redeeming one output under a description of at most 128
    UTF-16 code units. *)
Theorem every_call_follows_protocol (w : World) :
  reachable svc w -> Forall protocol_call (trace w).
Proof.
  induction 1 as [|w a _ IH _]; [constructor|].
  destruct (run_calls a w) as (new & -> & Hnew & _).
  apply Forall_app. by split.
Qed.

(** X13. In every world the application can be in, the references of the
    list are distinct, each of them is a live object, and so is the selected
    task, also after the list was loaded again or the task was completed. *)
Theorem references_stay_live (w : World) :
  reachable svc w ->
  NoDup (tasks (ui w))
  ∧ Forall (fun l => is_Some (heap w !! l)) (tasks (ui w))
  ∧ selection_live w.
Proof.
  intros Hreach. destruct (reachable_well_formed svc w Hreach) as [Hnd Hlive].
  split; [exact Hnd|]. split; [exact Hlive|]. clear Hnd Hlive.
  induction Hreach as [|w a Hreach IH Hen]; [by intros ref|].
  intros ref Href.
  destruct (run_selection a w) as [Hsame|[Hnone|(ref' & -> & Hclick)]].
  - rewrite Hsame in Href. destruct (IH ref Href) as [o Ho].
    exists o. eapply lookup_weaken; [exact Ho|apply run_heap_grows].
  - congruence.
  - rewrite Hclick in Href. injection Href as <-.
    destruct (reachable_well_formed svc w Hreach) as [_ Hlive].
    rewrite Forall_forall in Hlive. exact (Hlive ref' Hen).
Qed.

(** X14. In every world the application can be in, each listed object has
    a text that is a string, and has a token with a locking script, a
    transaction id and an output index unless its text is the one of the
    placeholder of an unreadable basket output. *)
Theorem listed_objects_have_text_and_token (w : World) :
  reachable svc w -> all_listable w.
Proof.
  induction 1 as [|w a _ IH _]; [constructor|]. by apply run_listable.
Qed.

(** X15. In every world the application can be in, between two steps,
    neither dialog is left loading: the creation and the completion handler
    clear their flag whatever the calls did. *)
Theorem dialogs_never_left_loading (w : World) :
  reachable svc w ->
  createLoading (ui w) = false ∧ completeLoading (ui w) = false.
Proof.
  induction 1 as [|w a _ [IH1 IH2] _]; [done|]. by apply run_loading.
Qed.

(** X16. A step of the application only adds to the record of calls, and
    submits at most one Action: none when the page loads, a task is clicked,
    a field changes or a dialog opens or closes, and at most one per
    submitted dialog. *)
Theorem at_most_one_action_per_step (a : action) (w : World) :
  exists new : list call,
    trace (snd (run svc a w)) = trace w ++ new
    ∧ (ledger_actions new
       <= match a with SubmitCreate | SubmitComplete => 1 | _ => 0 end)%nat.
Proof. destruct (run_calls a w) as (new & H1 & _ & H3). by exists new. Qed.

End Always.

Lemma oldest_selected_reachable :
  reachable Scenario.three_tasks_wallet Cases.oldest_selected.
Proof.
  apply reachable_step; [apply reachable_step; [constructor|exact I]|].
  apply list_elem_of_lookup. by exists 2%nat.
Qed.

Lemma milk_round_reachable : reachable Cases.milk_wallet Cases.milk_round.
Proof.
  change Cases.milk_round
    with (snd (run Cases.milk_wallet SubmitComplete
            (snd (run Cases.milk_wallet (ClickTask 1%nat)
              (snd (run Cases.milk_wallet PageLoads
                (snd (run Cases.milk_wallet SubmitCreate
                  (snd (run Cases.milk_wallet (ChangeAmount (of_Z 1000))
                    (snd (run Cases.milk_wallet (ChangeTask "Buy milk")
                      initial_world)))))))))))).
  apply reachable_step; [|exact I].
  apply reachable_step; [|apply list_elem_of_lookup; by exists 0%nat].
  repeat (apply reachable_step; [|exact I]). constructor.
Qed.

Lemma every_call_follows_protocol_witness :
  reachable Cases.milk_wallet Cases.milk_round
  ∧ trace Cases.milk_round
    = [ Encrypt (Buffer_from "Buy milk") "todo list" "1";
        PushdropCreate [Buffer_from TODO_PROTO_ADDR; Scenario.milk_ciphertext]
          "todo list" "1";
        CreateAction (create_args "Buy milk" (of_Z 1000) Scenario.milk_script);
        basket_query;
        Decrypt Scenario.milk_ciphertext "todo list" "1" "string";
        redeem_call (listed_task Cases.milk_output "Buy milk")
          (listed_token Cases.milk_output);
        CreateAction (complete_args Cases.milk_wallet
                        (listed_task Cases.milk_output "Buy milk")
                        (listed_token Cases.milk_output) "unlock") ]
  ∧ Forall protocol_call (trace Cases.milk_round).
Proof.
  split; [exact milk_round_reachable|]. split; [reflexivity|].
  exact (every_call_follows_protocol Cases.milk_wallet Cases.milk_round
           milk_round_reachable).
Defined.

Lemma references_stay_live_witness :
  reachable Scenario.three_tasks_wallet Cases.oldest_selected
  ∧ selectedTask (ui Cases.oldest_selected) = Some 0%nat
  ∧ selection_live Cases.oldest_selected.
Proof.
  split; [exact oldest_selected_reachable|]. split; [reflexivity|].
  destruct (references_stay_live Scenario.three_tasks_wallet Cases.oldest_selected
              oldest_selected_reachable) as (_ & _ & H).
  exact H.
Defined.

Lemma placeholder_selected_reachable :
  reachable Scenario.only_corrupt_wallet Cases.placeholder_selected.
Proof.
  apply reachable_step; [apply reachable_step; [constructor|exact I]|].
  apply list_elem_of_lookup. by exists 0%nat.
Qed.

Lemma listed_objects_have_text_and_token_witness :
  reachable Scenario.only_corrupt_wallet Cases.placeholder_selected
  ∧ tasks (ui Cases.placeholder_selected) = [0%nat]
  ∧ all_listable Cases.placeholder_selected.
Proof.
  split; [exact placeholder_selected_reachable|]. split; [reflexivity|].
  exact (listed_objects_have_text_and_token Scenario.only_corrupt_wallet
           Cases.placeholder_selected placeholder_selected_reachable).
Defined.

Lemma rejected_reachable :
  reachable Cases.rejecting_wallet (Cases.milk_created Cases.rejecting_wallet).
Proof.
  change (Cases.milk_created Cases.rejecting_wallet)
    with (snd (run Cases.rejecting_wallet SubmitCreate
                 (snd (run Cases.rejecting_wallet (ChangeAmount (of_Z 1000))
                         (snd (run Cases.rejecting_wallet (ChangeTask "Buy milk")
                                 initial_world)))))).
  repeat (apply reachable_step; [|exact I]). constructor.
Qed.

Lemma dialogs_never_left_loading_witness :
  reachable Cases.rejecting_wallet (Cases.milk_created Cases.rejecting_wallet)
  ∧ createLoading (ui (Cases.milk_created Cases.rejecting_wallet)) = false
  ∧ completeLoading (ui (Cases.milk_created Cases.rejecting_wallet)) = false.
Proof.
  split; [exact rejected_reachable|].
  exact (dialogs_never_left_loading Cases.rejecting_wallet
           (Cases.milk_created Cases.rejecting_wallet) rejected_reachable).
Defined.
